(** * Hit and Blow: game logic and room service

    A shallow embedding of [src/utils/gameLogic.ts] and
    [src/utils/roomService.ts].  JavaScript strings are modelled as
    [string] (one [ascii] per code unit), numbers that hold counts,
    sizes and timestamps as [Z] or [nat], the Firestore collection
    ["rooms"] as a finite map from document ids to [Room] records, and
    thrown errors as an explicit error result.  Every call of the
    service receives the value that [Date.now()] returns as an argument
    [now], and runs on its own: a read and the write that follows it are
    not interleaved with another client's calls. *)

From Stdlib Require Import ZArith List Ascii String Lia.
From stdpp Require Import base decidable option list gmap strings pretty sorting.

Local Open Scope string_scope.

(** ** Strings as JavaScript sees them *)

Module JsString.

(** [s.split('')]: the code units of a string, in order. *)
Definition chars (s : string) : list ascii := list_ascii_of_string s.

(** [s[i]]: [None] stands for [undefined]. *)
Definition charAt (s : string) (i : nat) : option ascii := String.get i s.

(** [String(s[i])], the conversion [includes] applies to its argument:
    a one-character string, or the text of [undefined]. *)
Definition toStr (c : option ascii) : string :=
  match c with
  | Some a => String a EmptyString
  | None => "undefined"
  end.

(** [s.includes(sub)]: [sub] occurs in [s] as a substring. *)
Fixpoint includes (s sub : string) : bool :=
  String.prefix sub s ||
  match s with
  | EmptyString => false
  | String _ s' => includes s' sub
  end.

(** The character class [\d]. *)
Definition isDigit (c : ascii) : bool :=
  let n := nat_of_ascii c in (48 <=? n)%nat && (n <=? 57)%nat.

(** The rest of a match of [/^\d+$/] after its first digit: digits up
    to the end of the input. *)
Fixpoint digitsToEnd (s : string) : bool :=
  match s with
  | EmptyString => true
  | String c s' => isDigit c && digitsToEnd s'
  end.

(** [/^\d+$/.test(s)]. *)
Definition testAllDigits (s : string) : bool :=
  match s with
  | EmptyString => false
  | String c s' => isDigit c && digitsToEnd s'
  end.

End JsString.

(** ** gameLogic.ts *)

Module GameLogic.
Import JsString.

Record GameConfig := mkConfig {
  digits : Z;
  allowDuplicate : bool
}.

Definition defaultConfig : GameConfig :=
  {| digits := 4; allowDuplicate := false |}.

Record GuessResult := mkResult {
  hit : nat;
  blow : nat
}.

(** The body of the [for] loop of [checkGuess] at index [i]. *)
Definition checkGuess_step (secret guess : string)
    (acc : GuessResult) (i : nat) : GuessResult :=
  if decide (charAt secret i = charAt guess i) then
    {| hit := S (hit acc); blow := blow acc |}
  else if includes secret (toStr (charAt guess i)) then
    {| hit := hit acc; blow := S (blow acc) |}
  else acc.

(** [for (let i = 0; i < secret.length; i++)] over the two counters. *)
Definition checkGuess (secret guess : string) : GuessResult :=
  fold_left (checkGuess_step secret guess)
            (seq 0 (String.length secret))
            {| hit := 0; blow := 0 |}.

Definition isGameClear (result : GuessResult) (config : GameConfig) : bool :=
  bool_decide (Z.of_nat (hit result) = digits config).

(** *** validateGuess *)

(** The three messages [validateGuess] can return, named by what they
    report: a wrong number of characters, a character that is not a
    digit, a digit used twice. *)
Inductive ValidationError :=
| WrongLength
| NonDigitCharacter
| DuplicateNotAllowed.

(** [new Set(guess.split('')).size] *)
Definition uniqueDigitsSize (guess : string) : nat :=
  length (remove_dups (chars guess)).

Definition validateGuess (guess : string) (config : GameConfig)
    : option ValidationError :=
  if negb (Z.of_nat (String.length guess) =? digits config)%Z then
    Some WrongLength
  else if negb (testAllDigits guess) then
    Some NonDigitCharacter
  else if negb (allowDuplicate config) then
    if negb (Z.of_nat (uniqueDigitsSize guess) =? digits config)%Z then
      Some DuplicateNotAllowed
    else None
  else None.

(** *** generateRandomSecret *)

(** Errors thrown by the game logic and the room service; each
    constructor stands for one [new Error(message)] of the source
    ([StoreError] for a rejected Firestore call). *)
Inductive Error :=
| InvalidConfiguration
| NotFound
| AlreadyFull
| NotJoinable
| NotReady
| SecretsMissing
| PlayerNotFound
| StoreError.

Inductive Result (A : Type) :=
| Ok (a : A)
| Err (e : Error).
Arguments Ok {A} a.
Arguments Err {A} e.

(** [Math.random()] returns a double [k / 2^53] with [0 <= k < 2^53];
    [Math.floor(Math.random() * n)] for a small array length [n] is
    the integer part of [k * n / 2^53]. *)
Definition randomRange : Z := (2 ^ 53)%Z.

Definition floorRandomTimes (k : Z) (n : nat) : nat :=
  Z.to_nat (k * Z.of_nat n / randomRange).

(** The variables of the loop: the pool, the digits chosen so far
    ([None] for an [undefined] read past the end of the pool) and the
    number of calls made to [Math.random]. *)
Record GenState := mkGen {
  availableDigits : list Z;
  result : list (option Z);
  calls : nat
}.

Definition initialGen : GenState :=
  {| availableDigits := [0; 1; 2; 3; 4; 5; 6; 7; 8; 9]%Z;
     result := [];
     calls := 0 |}.

(** [result.join('')]: [undefined] entries print as nothing. *)
Definition elementToString (o : option Z) : string :=
  match o with
  | Some d => pretty d
  | None => ""
  end.

Definition join (l : list (option Z)) : string :=
  foldr (fun o acc => elementToString o +:+ acc) "" l.

Section Generate.
(** [rand i] is the numerator drawn by the [i]-th call of
    [Math.random]. *)
Variable rand : nat -> Z.

(** One iteration of the [while] loop. *)
Definition generate_body (allowDup : bool) (st : GenState) : GenState :=
  if allowDup then
    let randomDigit :=
      availableDigits st !! floorRandomTimes (rand (calls st)) 10 in
    {| availableDigits := availableDigits st;
       result := result st ++ [randomDigit];
       calls := S (calls st) |}
  else
    let randomIndex :=
      floorRandomTimes (rand (calls st)) (length (availableDigits st)) in
    let selectedDigit := availableDigits st !! randomIndex in
    {| availableDigits := delete randomIndex (availableDigits st);
       result := result st ++ [selectedDigit];
       calls := S (calls st) |}.

(** [while (result.length < digits)], with a bound on the number of
    iterations; [None] when the bound is reached first. *)
Fixpoint generate_loop (fuel : nat) (config : GameConfig) (st : GenState)
    : option GenState :=
  if bool_decide (Z.of_nat (length (result st)) < digits config)%Z then
    match fuel with
    | O => None
    | S fuel' =>
        generate_loop fuel' config (generate_body (allowDuplicate config) st)
    end
  else Some st.

Definition generateRandomSecret (config : GameConfig)
    : option (Result string) :=
  if negb (allowDuplicate config) && (10 <? digits config)%Z then
    Some (Err InvalidConfiguration)
  else
    match generate_loop (Z.to_nat (digits config)) config initialGen with
    | Some st => Some (Ok (join (result st)))
    | None => None
    end.
End Generate.

End GameLogic.

Import JsString GameLogic.

(** ** roomTypes.ts *)

Module RoomTypes.

Inductive RoomStatus := waiting | playing | finished.

Inductive PlayerRole := host_role | guest_role.

Record Player := mkPlayer {
  uid : string;
  role : PlayerRole;
  isReady : bool;
  secret : option string;
  guesses : list string;
  lastActiveAt : Z
}.

Record Room := mkRoom {
  id : string;
  status : RoomStatus;
  config : GameConfig;
  host : Player;
  guest : option Player;
  currentTurn : PlayerRole;
  createdAt : Z;
  updatedAt : Z
}.

Record CreateRoomData := mkCreate {
  create_config : GameConfig;
  hostUid : string
}.

#[global] Instance RoomStatus_eq_dec : EqDecision RoomStatus.
Proof. solve_decision. Defined.

#[global] Instance PlayerRole_eq_dec : EqDecision PlayerRole.
Proof. solve_decision. Defined.

(** Field writes, one per field path used by [updateDoc] in the
    service. *)
Definition set_isReady (v : bool) (p : Player) : Player :=
  {| uid := uid p; role := role p; isReady := v; secret := secret p;
     guesses := guesses p; lastActiveAt := lastActiveAt p |}.

Definition set_secret (v : string) (p : Player) : Player :=
  {| uid := uid p; role := role p; isReady := isReady p; secret := Some v;
     guesses := guesses p; lastActiveAt := lastActiveAt p |}.

Definition set_guesses (v : list string) (p : Player) : Player :=
  {| uid := uid p; role := role p; isReady := isReady p; secret := secret p;
     guesses := v; lastActiveAt := lastActiveAt p |}.

Definition set_lastActiveAt (v : Z) (p : Player) : Player :=
  {| uid := uid p; role := role p; isReady := isReady p; secret := secret p;
     guesses := guesses p; lastActiveAt := v |}.

Definition set_status (v : RoomStatus) (r : Room) : Room :=
  {| id := id r; status := v; config := config r; host := host r;
     guest := guest r; currentTurn := currentTurn r;
     createdAt := createdAt r; updatedAt := updatedAt r |}.

(** A write below ["host."]. *)
Definition in_host (f : Player -> Player) (r : Room) : Room :=
  {| id := id r; status := status r; config := config r; host := f (host r);
     guest := guest r; currentTurn := currentTurn r;
     createdAt := createdAt r; updatedAt := updatedAt r |}.

(** A write below ["guest."].  The service issues one only after it has
    read a guest whose uid matches. *)
Definition in_guest (f : Player -> Player) (r : Room) : Room :=
  {| id := id r; status := status r; config := config r; host := host r;
     guest := f <$> guest r; currentTurn := currentTurn r;
     createdAt := createdAt r; updatedAt := updatedAt r |}.

Definition set_guest (v : option Player) (r : Room) : Room :=
  {| id := id r; status := status r; config := config r; host := host r;
     guest := v; currentTurn := currentTurn r;
     createdAt := createdAt r; updatedAt := updatedAt r |}.

Definition set_currentTurn (v : PlayerRole) (r : Room) : Room :=
  {| id := id r; status := status r; config := config r; host := host r;
     guest := guest r; currentTurn := v;
     createdAt := createdAt r; updatedAt := updatedAt r |}.

Definition set_updatedAt (v : Z) (r : Room) : Room :=
  {| id := id r; status := status r; config := config r; host := host r;
     guest := guest r; currentTurn := currentTurn r;
     createdAt := createdAt r; updatedAt := v |}.

End RoomTypes.

(** ** The document store *)

Module Firestore.
Import RoomTypes.

(** The collection ["rooms"]. *)
Abbreviation Store := (gmap string Room).

(** A computation of the service: it reads and writes the store and
    either returns or throws. *)
Definition M (A : Type) : Type := Store -> Result A * Store.

Definition ret {A} (a : A) : M A := fun s => (Ok a, s).

Definition throw {A} (e : Error) : M A := fun s => (Err e, s).

Definition bind {A B} (m : M A) (k : A -> M B) : M B :=
  fun s =>
    match m s with
    | (Ok a, s') => k a s'
    | (Err e, s') => (Err e, s')
    end.

(** [getDoc]: the snapshot, [None] when [exists()] is false. *)
Definition getDoc (roomId : string) : M (option Room) :=
  fun s => (Ok (s !! roomId), s).

(** [setDoc]: creates or replaces the document. *)
Definition setDoc (roomId : string) (room : Room) : M unit :=
  fun s => (Ok tt, <[roomId := room]> s).

(** [updateDoc]: writes the given fields of an existing document and
    is rejected when there is none. *)
Definition updateDoc (roomId : string) (fields : Room -> Room) : M unit :=
  fun s =>
    match s !! roomId with
    | Some room => (Ok tt, <[roomId := fields room]> s)
    | None => (Err StoreError, s)
    end.

Definition deleteDoc (roomId : string) : M unit :=
  fun s => (Ok tt, delete roomId s).

(** The order of [orderBy('createdAt', 'desc')] on documents with their
    ids: the later creation time first and, among equal creation times,
    the greater document id first. *)
Definition newerFirst (d1 d2 : string * Room) : Prop :=
  (createdAt (snd d2) < createdAt (snd d1))%Z ∨
  (createdAt (snd d1) = createdAt (snd d2) ∧ String.le (fst d2) (fst d1)).

#[global] Instance newerFirst_dec : RelDecision newerFirst.
Proof. intros d1 d2. unfold newerFirst. apply _. Defined.

(** [getDocs(query(rooms, where('status', '==', wanted),
    orderBy('createdAt', 'desc'), limit(maxCount)))], mapped to the
    documents' data.  [limit] rejects a count that is not positive. *)
Definition queryByStatus (wanted : RoomStatus) (maxCount : Z)
    : M (list Room) :=
  fun s =>
    if (maxCount <=? 0)%Z then (Err StoreError, s)
    else
      (Ok (take (Z.to_nat maxCount)
             (snd <$> merge_sort newerFirst
                        (filter (fun d => status (snd d) = wanted)
                                (map_to_list s)))),
       s).

End Firestore.

Declare Scope service_scope.
Delimit Scope service_scope with service.
Notation "x <- m ;; k" := (Firestore.bind m (fun x => k))
  (at level 100, m at next level, right associativity) : service_scope.
Notation "m ;;; k" := (Firestore.bind m (fun _ => k))
  (at level 100, right associativity) : service_scope.

(** ** roomService.ts *)

Module RoomService.
Import RoomTypes Firestore.
Local Open Scope service_scope.

(** [createRoom].  [roomId] is the id that [doc(collection(db, 'rooms'))]
    generates and [now] the value of [Date.now()]. *)
Definition createRoom (roomId : string) (data : CreateRoomData) (now : Z)
    : M string :=
  let room :=
    {| id := roomId;
       status := waiting;
       config := create_config data;
       host := {| uid := hostUid data; role := host_role; isReady := false;
                  secret := None; guesses := []; lastActiveAt := now |};
       guest := None;
       currentTurn := host_role;
       createdAt := now;
       updatedAt := now |} in
  (setDoc roomId room ;;; ret roomId).

Definition joinRoom (roomId guestUid : string) (now : Z) : M bool :=
  (roomSnap <- getDoc roomId ;;
   match roomSnap with
   | None => throw NotFound
   | Some room =>
       match guest room with
       | Some _ => throw AlreadyFull
       | None =>
           if bool_decide (status room ≠ waiting) then throw NotJoinable
           else
             let guest :=
               {| uid := guestUid; role := guest_role; isReady := false;
                  secret := None; guesses := []; lastActiveAt := now |} in
             (updateDoc roomId
                (fun r => set_updatedAt now (set_guest (Some guest) r)) ;;;
              ret true)
       end
   end).

(** [room.guest?.uid === playerUid] *)
Definition guestIs (room : Room) (playerUid : string) : bool :=
  bool_decide (uid <$> guest room = Some playerUid).

Definition updatePlayerReady (roomId playerUid : string) (ready : bool)
    (now : Z) : M unit :=
  (roomSnap <- getDoc roomId ;;
   match roomSnap with
   | None => throw NotFound
   | Some room =>
       if bool_decide (uid (host room) = playerUid) then
         updateDoc roomId
           (fun r => set_updatedAt now (in_host (set_isReady ready) r))
       else if guestIs room playerUid then
         updateDoc roomId
           (fun r => set_updatedAt now (in_guest (set_isReady ready) r))
       else ret tt
   end).

Definition setPlayerSecret (roomId playerUid newSecret : string) (now : Z)
    : M unit :=
  (roomSnap <- getDoc roomId ;;
   match roomSnap with
   | None => throw NotFound
   | Some room =>
       if bool_decide (uid (host room) = playerUid) then
         updateDoc roomId
           (fun r => set_updatedAt now (in_host (set_secret newSecret) r))
       else if guestIs room playerUid then
         updateDoc roomId
           (fun r => set_updatedAt now (in_guest (set_secret newSecret) r))
       else ret tt
   end).

(** [!p.secret]: no secret, or the empty string. *)
Definition secretMissing (p : Player) : bool :=
  match secret p with
  | None => true
  | Some s => bool_decide (s = "")
  end.

(** [!room.guest?.isReady] *)
Definition guestNotReady (room : Room) : bool :=
  match guest room with
  | None => true
  | Some g => negb (isReady g)
  end.

(** [!room.guest.secret], read after the readiness check has found a
    guest. *)
Definition guestSecretMissing (room : Room) : bool :=
  match guest room with
  | None => true
  | Some g => secretMissing g
  end.

Definition startGame (roomId : string) (now : Z) : M unit :=
  (roomSnap <- getDoc roomId ;;
   match roomSnap with
   | None => throw NotFound
   | Some room =>
       if negb (isReady (host room)) || guestNotReady room then
         throw NotReady
       else if secretMissing (host room) || guestSecretMissing room then
         throw SecretsMissing
       else
         updateDoc roomId (fun r => set_updatedAt now (set_status playing r))
   end).

Definition submitGuess (roomId playerUid guess : string) (now : Z) : M unit :=
  (roomSnap <- getDoc roomId ;;
   match roomSnap with
   | None => throw NotFound
   | Some room =>
       isHost <- (if bool_decide (uid (host room) = playerUid) then ret true
                  else if negb (guestIs room playerUid) then
                    throw PlayerNotFound
                  else ret false) ;;
       let guesses' :=
         if isHost then (guesses (host room) ++ [guess])%list
         else (from_option guesses [] (guest room) ++ [guess])%list in
       let nextTurn := if isHost then guest_role else host_role in
       if isHost then
         updateDoc roomId
           (fun r => set_updatedAt now
                       (set_currentTurn nextTurn
                          (in_host (set_guesses guesses') r)))
       else
         updateDoc roomId
           (fun r => set_updatedAt now
                       (set_currentTurn nextTurn
                          (in_guest (set_guesses guesses') r)))
   end).

Definition finishGame (roomId : string) (now : Z) : M unit :=
  updateDoc roomId (fun r => set_updatedAt now (set_status finished r)).

Definition deleteRoom (roomId : string) : M unit :=
  deleteDoc roomId.

Definition updatePlayerActive (roomId playerUid : string) (now : Z)
    : M unit :=
  (roomSnap <- getDoc roomId ;;
   match roomSnap with
   | None => ret tt
   | Some room =>
       if bool_decide (uid (host room) = playerUid) then
         updateDoc roomId
           (fun r => set_updatedAt now (in_host (set_lastActiveAt now) r))
       else if guestIs room playerUid then
         updateDoc roomId
           (fun r => set_updatedAt now (in_guest (set_lastActiveAt now) r))
       else ret tt
   end).

(** [getRoom]: the record, or [None] for [null]. *)
Definition getRoom (roomId : string) : M (option Room) :=
  (roomSnap <- getDoc roomId ;;
   match roomSnap with
   | None => ret None
   | Some room => ret (Some room)
   end).

(** [getWaitingRooms(maxCount = 20)]: [None] is a call without
    argument. *)
Definition getWaitingRooms (maxCount : option Z) : M (list Room) :=
  queryByStatus waiting (default 20%Z maxCount).

End RoomService.

(** ** Sequences of calls *)

Module Trace.
Import RoomTypes Firestore RoomService.

(** One call of an exported operation of the service, with its
    arguments and the clock value it reads. *)
Inductive Op :=
| CreateRoom (roomId : string) (data : CreateRoomData) (now : Z)
| JoinRoom (roomId guestUid : string) (now : Z)
| SetPlayerSecret (roomId playerUid newSecret : string) (now : Z)
| UpdatePlayerReady (roomId playerUid : string) (ready : bool) (now : Z)
| StartGame (roomId : string) (now : Z)
| SubmitGuess (roomId playerUid guess : string) (now : Z)
| FinishGame (roomId : string) (now : Z)
| DeleteRoom (roomId : string)
| UpdatePlayerActive (roomId playerUid : string) (now : Z).

(** The store a computation leaves behind, whether it returns or
    throws. *)
Definition after {A} (m : M A) (s : Store) : Store := snd (m s).

Definition exec (op : Op) (s : Store) : Store :=
  match op with
  | CreateRoom roomId data now => after (createRoom roomId data now) s
  | JoinRoom roomId guestUid now => after (joinRoom roomId guestUid now) s
  | SetPlayerSecret roomId playerUid newSecret now =>
      after (setPlayerSecret roomId playerUid newSecret now) s
  | UpdatePlayerReady roomId playerUid ready now =>
      after (updatePlayerReady roomId playerUid ready now) s
  | StartGame roomId now => after (startGame roomId now) s
  | SubmitGuess roomId playerUid guess now =>
      after (submitGuess roomId playerUid guess now) s
  | FinishGame roomId now => after (finishGame roomId now) s
  | DeleteRoom roomId => after (deleteRoom roomId) s
  | UpdatePlayerActive roomId playerUid now =>
      after (updatePlayerActive roomId playerUid now) s
  end.

(** A generated document id is new: [createRoom] never lands on an
    existing document. *)
Definition admissible (s : Store) (op : Op) : Prop :=
  match op with
  | CreateRoom roomId _ _ => s !! roomId = None
  | _ => True
  end.

#[global] Instance admissible_dec s op : Decision (admissible s op).
Proof. destruct op; simpl; apply _. Defined.

Definition run (ops : list Op) (s : Store) : Store :=
  fold_left (fun s op => exec op s) ops s.

(** [steps s ops s']: the calls [ops], each admissible where it is made,
    lead from [s] to [s']. *)
Inductive steps : Store -> list Op -> Store -> Prop :=
| steps_nil s : steps s [] s
| steps_cons s op ops s' :
    admissible s op -> steps (exec op s) ops s' -> steps s (op :: ops) s'.

End Trace.

Import RoomTypes Firestore RoomService Trace.

(** ** Scoring, position by position *)

(** Position [i] is a hit: both strings carry the same character there. *)
Definition is_hit_at (secret guess : string) (i : nat) : Prop :=
  charAt secret i = charAt guess i.

(** Position [i] is a blow: the characters differ and the guessed one
    occurs somewhere in the secret. *)
Definition is_blow_at (secret guess : string) (i : nat) : Prop :=
  charAt secret i ≠ charAt guess i ∧
  ∃ c, charAt guess i = Some c ∧ c ∈ chars secret.

#[global] Instance is_hit_at_dec secret guess i :
  Decision (is_hit_at secret guess i).
Proof. unfold is_hit_at. apply _. Defined.

#[global] Instance is_blow_at_dec secret guess i :
  Decision (is_blow_at secret guess i).
Proof.
  unfold is_blow_at. apply and_dec; [apply _|].
  destruct (charAt guess i) as [c|].
  - destruct (decide (c ∈ chars secret)) as [Hin|Hout].
    + left. exists c. split; [reflexivity | exact Hin].
    + right. intros (c' & Heq & Hc'). inversion Heq; subst. contradiction.
  - right. intros (c' & Heq & _). discriminate.
Defined.

Definition positions (s : string) : list nat := seq 0 (String.length s).

Definition count_hits (secret guess : string) : nat :=
  length (filter (is_hit_at secret guess) (positions secret)).

Definition count_blows (secret guess : string) : nat :=
  length (filter (is_blow_at secret guess) (positions secret)).

(** A digit string: every character is one of [0] to [9]. *)
Definition digitString (s : string) : Prop :=
  Forall (fun c => isDigit c = true) (chars s).

(** ** The strict rule for blows

    Under the strict rule a digit scores as a blow at most as often as
    it remains, once the hits are set aside, in the secret and in the
    guess. *)

(** The characters of [s] at the positions that are not hits. *)
Definition remaining (secret guess s : string) : list ascii :=
  omap (fun i => if decide (is_hit_at secret guess i) then None
                 else charAt s i)
       (positions secret).

Definition occurrences (c : ascii) (l : list ascii) : nat :=
  length (filter (fun x => x = c) l).

Definition decimalDigits : list ascii := chars "0123456789".

Definition strictBlow (secret guess : string) : nat :=
  foldr (fun c acc =>
           Nat.min (occurrences c (remaining secret guess secret))
                   (occurrences c (remaining secret guess guess)) + acc)
        0 decimalDigits.

(** ** What the generator maintains *)

(** The character [Number.prototype.toString] prints for a one-digit
    number. *)
Definition digitChar (d : Z) : ascii :=
  match pretty d with
  | String c _ => c
  | EmptyString => "0"%char
  end.

Definition oneDigit (d : Z) : Prop := (0 <= d <= 9)%Z.

(** The state of the loop in terms of the digits [chosen] so far: every
    entry of [result] is a digit, and either the pool is still whole
    (duplicates allowed) or the pool holds exactly the digits not yet
    chosen. *)
Definition generate_inv (allowDup : bool) (chosen : list Z) (st : GenState)
    : Prop :=
  result st = Some <$> chosen ∧
  Forall oneDigit chosen ∧
  if allowDup then availableDigits st = availableDigits initialGen
  else (chosen ++ availableDigits st)%list ≡ₚ availableDigits initialGen.

(** ** Sample data *)

(** A linear congruential sequence standing for the draws of
    [Math.random]. *)
Definition sampleRand (i : nat) : Z :=
  ((Z.of_nat i * 6364136223846793005 + 1442695040888963407)
     mod randomRange)%Z.

Definition sampleData : CreateRoomData :=
  {| create_config := defaultConfig; hostUid := "alice" |}.

(** A room that ["alice"] has just created: status [waiting], no
    guest. *)
Definition createdStore : Store :=
  after (createRoom "room1" sampleData 100) ∅.

(** The same room once ["bob"] has joined. *)
Definition joinedStore : Store :=
  after (joinRoom "room1" "bob" 110) createdStore.

Definition alice : Player :=
  {| uid := "alice"; role := host_role; isReady := false; secret := None;
     guesses := []; lastActiveAt := 100 |}.

Definition bob : Player :=
  {| uid := "bob"; role := guest_role; isReady := false; secret := None;
     guesses := []; lastActiveAt := 110 |}.

(** The record held by [joinedStore]. *)
Definition joinedRoom : Room :=
  {| id := "room1"; status := waiting; config := defaultConfig;
     host := alice; guest := Some bob; currentTurn := host_role;
     createdAt := 100; updatedAt := 110 |}.

(** ["alice"] commits a secret in the room she created, then commits
    another one. *)
Definition firstSecretStore : Store :=
  after (setPlayerSecret "room1" "alice" "1234" 120) createdStore.

Definition secondSecretStore : Store :=
  after (setPlayerSecret "room1" "alice" "5678" 130) firstSecretStore.

(** The record held by [finishedStore] below. *)
Definition finishedRoom : Room :=
  {| id := "room1"; status := finished; config := defaultConfig;
     host := {| uid := "alice"; role := host_role; isReady := true;
                secret := Some "1234"; guesses := []; lastActiveAt := 100 |};
     guest := Some {| uid := "bob"; role := guest_role; isReady := true;
                      secret := Some "5678"; guesses := [];
                      lastActiveAt := 110 |};
     currentTurn := host_role; createdAt := 100; updatedAt := 170 |}.

(** Both players commit a secret and declare themselves ready, the game
    is started and then finished. *)
Definition playedToTheEnd : list Op :=
  [ CreateRoom "room1" sampleData 100;
    JoinRoom "room1" "bob" 110;
    SetPlayerSecret "room1" "alice" "1234" 120;
    SetPlayerSecret "room1" "bob" "5678" 130;
    UpdatePlayerReady "room1" "alice" true 140;
    UpdatePlayerReady "room1" "bob" true 150;
    StartGame "room1" 160;
    FinishGame "room1" 170 ].

Definition finishedStore : Store := run playedToTheEnd ∅.

(** ** What one call can do to one room

    [room_change roomId room op room']: the call [op] may turn the
    record [room] stored under [roomId] into [room'].  Each constructor
    is one write of the service together with the tests that lead to
    it. *)
Inductive room_change (roomId : string) (room : Room) : Op -> Room -> Prop :=
| change_none op :
    room_change roomId room op room
| change_join guestUid now :
    guest room = None -> status room = waiting ->
    room_change roomId room (JoinRoom roomId guestUid now)
      (set_updatedAt now
         (set_guest
            (Some {| uid := guestUid; role := guest_role; isReady := false;
                     secret := None; guesses := []; lastActiveAt := now |})
            room))
| change_secret_host playerUid newSecret now :
    uid (host room) = playerUid ->
    room_change roomId room (SetPlayerSecret roomId playerUid newSecret now)
      (set_updatedAt now (in_host (set_secret newSecret) room))
| change_secret_guest playerUid newSecret now :
    uid (host room) ≠ playerUid -> uid <$> guest room = Some playerUid ->
    room_change roomId room (SetPlayerSecret roomId playerUid newSecret now)
      (set_updatedAt now (in_guest (set_secret newSecret) room))
| change_ready_host playerUid ready now :
    uid (host room) = playerUid ->
    room_change roomId room (UpdatePlayerReady roomId playerUid ready now)
      (set_updatedAt now (in_host (set_isReady ready) room))
| change_ready_guest playerUid ready now :
    uid (host room) ≠ playerUid -> uid <$> guest room = Some playerUid ->
    room_change roomId room (UpdatePlayerReady roomId playerUid ready now)
      (set_updatedAt now (in_guest (set_isReady ready) room))
| change_start now :
    isReady (host room) = true -> guestNotReady room = false ->
    secretMissing (host room) = false -> guestSecretMissing room = false ->
    room_change roomId room (StartGame roomId now)
      (set_updatedAt now (set_status playing room))
| change_guess_host playerUid guess now :
    uid (host room) = playerUid ->
    room_change roomId room (SubmitGuess roomId playerUid guess now)
      (set_updatedAt now
         (set_currentTurn guest_role
            (in_host (set_guesses (guesses (host room) ++ [guess])%list)
                     room)))
| change_guess_guest playerUid guess now :
    uid (host room) ≠ playerUid -> uid <$> guest room = Some playerUid ->
    room_change roomId room (SubmitGuess roomId playerUid guess now)
      (set_updatedAt now
         (set_currentTurn host_role
            (in_guest
               (set_guesses
                  (from_option guesses [] (guest room) ++ [guess])%list)
               room)))
| change_finish now :
    room_change roomId room (FinishGame roomId now)
      (set_updatedAt now (set_status finished room))
| change_active_host playerUid now :
    uid (host room) = playerUid ->
    room_change roomId room (UpdatePlayerActive roomId playerUid now)
      (set_updatedAt now (in_host (set_lastActiveAt now) room))
| change_active_guest playerUid now :
    uid (host room) ≠ playerUid -> uid <$> guest room = Some playerUid ->
    room_change roomId room (UpdatePlayerActive roomId playerUid now)
      (set_updatedAt now (in_guest (set_lastActiveAt now) room)).

(** ** components/GamePage.tsx: the single-player page *)

Module GamePage.

(** ['config' | 'playing' | 'won' | 'lost'] *)
Inductive GameState := state_config | state_playing | state_won | state_lost.

#[global] Instance GameState_eq_dec : EqDecision GameState.
Proof. solve_decision. Defined.

Record GuessHistory := mkHistory {
  guess : string;
  hit : nat;
  blow : nat
}.

(** The state variables of the component.  [error] is [None] for the
    empty string and otherwise the message of [validateGuess]. *)
Record Page := mkPage {
  config : GameConfig;
  gameState : GameState;
  secret : string;
  currentGuess : string;
  history : list GuessHistory;
  error : option ValidationError
}.

(** The initial values given to [useState]. *)
Definition initialPage : Page :=
  {| config := {| digits := 4; allowDuplicate := false |};
     gameState := state_config;
     secret := "";
     currentGuess := "";
     history := [];
     error := None |}.

(** [startGame]: when [generateRandomSecret] throws, no state is set. *)
Definition startGame (rand : nat -> Z) (p : Page) : option (Result Page) :=
  match generateRandomSecret rand (config p) with
  | Some (Ok newSecret) =>
      Some (Ok {| config := config p;
                  gameState := state_playing;
                  secret := newSecret;
                  currentGuess := "";
                  history := [];
                  error := None |})
  | Some (Err e) => Some (Err e)
  | None => None
  end.

(** [handleSubmitGuess]: the state after the handler has run, every
    read being of the state the handler was rendered with. *)
Definition handleSubmitGuess (p : Page) : Page :=
  match validateGuess (currentGuess p) (config p) with
  | Some validationError =>
      {| config := config p; gameState := gameState p; secret := secret p;
         currentGuess := currentGuess p; history := history p;
         error := Some validationError |}
  | None =>
      let result := checkGuess (secret p) (currentGuess p) in
      {| config := config p;
         gameState := if isGameClear result (config p) then state_won
                      else gameState p;
         secret := secret p;
         currentGuess := "";
         history := (history p ++
                     [{| guess := currentGuess p;
                         hit := GameLogic.hit result;
                         blow := GameLogic.blow result |}])%list;
         error := None |}
  end.

(** [setConfig({ ...config, digits: num })] *)
Definition setDigits (num : Z) (p : Page) : Page :=
  {| config := {| digits := num;
                  allowDuplicate := allowDuplicate (config p) |};
     gameState := gameState p; secret := secret p;
     currentGuess := currentGuess p; history := history p;
     error := error p |}.

(** [setConfig({ ...config, allowDuplicate: e.target.checked })] *)
Definition setAllowDuplicate (checked : bool) (p : Page) : Page :=
  {| config := {| digits := digits (config p); allowDuplicate := checked |};
     gameState := gameState p; secret := secret p;
     currentGuess := currentGuess p; history := history p;
     error := error p |}.

Definition setCurrentGuess (value : string) (p : Page) : Page :=
  {| config := config p; gameState := gameState p; secret := secret p;
     currentGuess := value; history := history p; error := error p |}.

Definition setGameState (v : GameState) (p : Page) : Page :=
  {| config := config p; gameState := v; secret := secret p;
     currentGuess := currentGuess p; history := history p;
     error := error p |}.

(** What the user can do on the page. *)
Inductive Event :=
| ChooseDigits (num : Z)
| CheckDuplicate (checked : bool)
| StartGame (rand : nat -> Z)
| TypeGuess (value : string)
| SubmitGuess
| BackToConfig.

(** What the rendered page offers: the settings and the start button
    on the settings screen only, with one button for each of 3, 4, 5
    and 6 digits; the input and the submit button enabled while
    [playing] only; the way back to the settings on the game screen. *)
Definition offered (p : Page) (ev : Event) : Prop :=
  match ev with
  | ChooseDigits num =>
      gameState p = state_config ∧ num ∈ [3; 4; 5; 6]%Z
  | CheckDuplicate _ => gameState p = state_config
  | StartGame rand =>
      gameState p = state_config ∧
      ∀ i, (0 <= rand i < randomRange)%Z
  | TypeGuess _ => gameState p = state_playing
  | SubmitGuess => gameState p = state_playing
  | BackToConfig => gameState p ≠ state_config
  end.

Definition handle (ev : Event) (p : Page) : Page :=
  match ev with
  | ChooseDigits num => setDigits num p
  | CheckDuplicate checked => setAllowDuplicate checked p
  | StartGame rand =>
      match startGame rand p with
      | Some (Ok p') => p'
      | _ => p
      end
  | TypeGuess value => setCurrentGuess value p
  | SubmitGuess => handleSubmitGuess p
  | BackToConfig => setGameState state_config p
  end.

(** The pages a user can be shown, from the first render on. *)
Inductive shown : Page -> Prop :=
| shown_initial : shown initialPage
| shown_next p ev : shown p -> offered p ev -> shown (handle ev p).

End GamePage.

(** ** components/OnlineGamePage.tsx: what a client derives from a room *)

Module OnlineGamePage.



(** [room.host.uid === user.uid] *)
Definition isHost (room : Room) (userUid : string) : bool :=
  bool_decide (uid (host room) = userUid).

Definition myPlayer (room : Room) (userUid : string) : option Player :=
  if isHost room userUid then Some (host room) else guest room.

Definition opponentPlayer (room : Room) (userUid : string)
    : option Player :=
  if isHost room userUid then guest room else Some (host room).

Definition isMyTurn (room : Room) (userUid : string) : bool :=
  bool_decide
    (currentTurn room = if isHost room userUid then host_role else guest_role).

(** One row of a guess list: the guess with its hits and blows. *)
Definition getGuessResults (guesses : list string) (secret : string)
    : list (string * GuessResult) :=
  (fun guess => (guess, checkGuess secret guess)) <$> guesses.

(** [opponentPlayer?.secret || ''] *)
Definition opponentSecret (room : Room) (userUid : string) : string :=
  match opponentPlayer room userUid with
  | Some o => default "" (secret o)
  | None => ""
  end.

Definition myResults (room : Room) (userUid : string)
    : list (string * GuessResult) :=
  match myPlayer room userUid with
  | Some p => getGuessResults (guesses p) (opponentSecret room userUid)
  | None => []
  end.

(** [mySecret] is the component's own state: the secret this client
    generated, or the empty string when it generated none. *)
Definition opponentResults (room : Room) (userUid mySecret : string)
    : list (string * GuessResult) :=
  match opponentPlayer room userUid with
  | Some o => getGuessResults (guesses o) mySecret
  | None => []
  end.

Definition iWon (room : Room) (userUid : string) : bool :=
  existsb (fun r => isGameClear (snd r) (RoomTypes.config room))
          (myResults room userUid).

Definition opponentWon (room : Room) (userUid mySecret : string) : bool :=
  existsb (fun r => isGameClear (snd r) (RoomTypes.config room))
          (opponentResults room userUid mySecret).

End OnlineGamePage.

(** ** More notions for the properties below *)


(** The room an operation names. *)
Definition target (op : Op) : string :=
  match op with
  | CreateRoom r _ _ | JoinRoom r _ _ | SetPlayerSecret r _ _ _
  | UpdatePlayerReady r _ _ _ | StartGame r _ | SubmitGuess r _ _ _
  | FinishGame r _ | DeleteRoom r | UpdatePlayerActive r _ _ => r
  end.

(** What an operation returns or throws, its value forgotten. *)
Definition outcome (op : Op) (s : Store) : Result unit :=
  let forget {A} (r : Result A) : Result unit :=
    match r with Ok _ => Ok tt | Err e => Err e end in
  match op with
  | CreateRoom roomId data now => forget (fst (createRoom roomId data now s))
  | JoinRoom roomId guestUid now => forget (fst (joinRoom roomId guestUid now s))
  | SetPlayerSecret roomId playerUid newSecret now =>
      fst (setPlayerSecret roomId playerUid newSecret now s)
  | UpdatePlayerReady roomId playerUid ready now =>
      fst (updatePlayerReady roomId playerUid ready now s)
  | StartGame roomId now => fst (startGame roomId now s)
  | SubmitGuess roomId playerUid guess now =>
      fst (submitGuess roomId playerUid guess now s)
  | FinishGame roomId now => fst (finishGame roomId now s)
  | DeleteRoom roomId => fst (deleteRoom roomId s)
  | UpdatePlayerActive roomId playerUid now =>
      fst (updatePlayerActive roomId playerUid now s)
  end.

(** The stores the service can produce from an empty collection. *)
Definition reachable (s : Store) : Prop := ∃ ops, steps ∅ ops s.


(** What every stored room satisfies: its [id] field is the id it is
    stored under, the host and the guest carry their roles, and a room
    that is [playing] has a guest. *)
Definition well_formed_room (roomId : string) (room : Room) : Prop :=
  id room = roomId ∧
  role (host room) = host_role ∧
  (∀ g, guest room = Some g -> role g = guest_role) ∧
  (status room = playing -> ∃ g, guest room = Some g).

(** The finished room, had ["alice"] guessed [0123] and then [5678],
    the secret of ["bob"]. *)
Definition wonRoom : Room :=
  in_host (set_guesses ["0123"; "5678"]) finishedRoom.

(** ** What every page of the single-player game satisfies *)

(** An entry of the history that the page's secret and configuration
    account for: a guess that passes validation, with the hits and
    blows of [checkGuess] against the secret. *)
Definition consistent_entry (p : GamePage.Page) (h : GamePage.GuessHistory)
    : Prop :=
  validateGuess (GamePage.guess h) (GamePage.config p) = None ∧
  GamePage.hit h
    = hit (checkGuess (GamePage.secret p) (GamePage.guess h)) ∧
  GamePage.blow h
    = blow (checkGuess (GamePage.secret p) (GamePage.guess h)).

Definition page_inv (p : GamePage.Page) : Prop :=
  digits (GamePage.config p) ∈ [3; 4; 5; 6]%Z ∧
  GamePage.gameState p ≠ GamePage.state_lost ∧
  (GamePage.gameState p ≠ GamePage.state_config ->
     validateGuess (GamePage.secret p) (GamePage.config p) = None ∧
     Forall (consistent_entry p) (GamePage.history p)) ∧
  (GamePage.gameState p = GamePage.state_playing ->
     Forall (fun h => GamePage.guess h ≠ GamePage.secret p)
            (GamePage.history p)) ∧
  (GamePage.gameState p = GamePage.state_won ->
     ∃ hs h, GamePage.history p = (hs ++ [h])%list ∧
             GamePage.guess h = GamePage.secret p ∧
             Forall (fun h' => GamePage.guess h' ≠ GamePage.secret p) hs).

(** A game started from the first page with the sample draws, and the
    same game after its secret, [1738], has been typed and submitted. *)
Definition playingPage : GamePage.Page :=
  GamePage.handle (GamePage.StartGame sampleRand) GamePage.initialPage.

Definition wonPage : GamePage.Page :=
  GamePage.handle GamePage.SubmitGuess
    (GamePage.handle (GamePage.TypeGuess "1738") playingPage).

(** ** Lemmas on strings *)

Lemma charAt_lookup (s : string) (i : nat) : charAt s i = chars s !! i.
Proof.
  unfold charAt, chars. revert i.
  induction s as [|a s IH]; intros [|i]; simpl; auto.
Qed.

Lemma chars_length (s : string) : length (chars s) = String.length s.
Proof. unfold chars. induction s; simpl; auto. Qed.

Lemma includes_char (s : string) (c : ascii) :
  includes s (String c EmptyString) = true ↔ c ∈ chars s.
Proof.
  induction s as [|a s IH]; simpl.
  - split; [discriminate | intros H; inversion H].
  - unfold chars in *. simpl. rewrite elem_of_cons, <- IH.
    destruct (Ascii.ascii_dec c a) as [->|Hne].
    + split; [auto | intros _].
      destruct s; reflexivity.
    + split.
      * intros H. right. exact H.
      * intros [H|H]; [contradiction | exact H].
Qed.

(** ** checkGuess *)

Lemma checkGuess_step_hit secret guess acc i :
  is_hit_at secret guess i ->
  checkGuess_step secret guess acc i =
    {| hit := S (hit acc); blow := blow acc |}.
Proof.
  unfold checkGuess_step, is_hit_at. intros H.
  destruct (decide _); [reflexivity | contradiction].
Qed.

Lemma checkGuess_step_blow secret guess acc i :
  is_blow_at secret guess i ->
  checkGuess_step secret guess acc i =
    {| hit := hit acc; blow := S (blow acc) |}.
Proof.
  unfold checkGuess_step. intros (Hne & c & Hc & Hin).
  destruct (decide _) as [Heq|_]; [contradiction|].
  rewrite Hc. simpl toStr.
  apply includes_char in Hin. rewrite Hin. reflexivity.
Qed.

Lemma checkGuess_step_miss secret guess acc i c :
  charAt guess i = Some c ->
  ¬ is_hit_at secret guess i -> ¬ is_blow_at secret guess i ->
  checkGuess_step secret guess acc i = acc.
Proof.
  unfold checkGuess_step, is_hit_at. intros Hc Hh Hb.
  destruct (decide _) as [Heq|Hne]; [contradiction|].
  rewrite Hc. simpl toStr.
  destruct (includes secret (String c EmptyString)) eqn:Hinc; [|reflexivity].
  exfalso. apply Hb. split; [exact Hne|].
  exists c. split; [exact Hc | apply includes_char; exact Hinc].
Qed.

(** The loop, run over any list of positions inside the guess, adds to
    each counter the number of positions of its kind. *)
Lemma checkGuess_fold secret guess (l : list nat) acc :
  Forall (fun i => i < String.length guess)%nat l ->
  fold_left (checkGuess_step secret guess) l acc =
    {| hit := hit acc + length (filter (is_hit_at secret guess) l);
       blow := blow acc + length (filter (is_blow_at secret guess) l) |}.
Proof.
  revert acc. induction l as [|i l IH]; intros acc Hl.
  - simpl. destruct acc. simpl. f_equal; lia.
  - apply Forall_cons in Hl as [Hi Hl]. simpl fold_left.
    rewrite IH by exact Hl.
    assert (is_Some (charAt guess i)) as [c Hc].
    { rewrite charAt_lookup. apply lookup_lt_is_Some.
      rewrite chars_length. exact Hi. }
    rewrite !filter_cons.
    destruct (decide (is_hit_at secret guess i)) as [Hh|Hh].
    + rewrite (checkGuess_step_hit _ _ _ _ Hh).
      destruct (decide (is_blow_at secret guess i)) as [Hb|Hb].
      * exfalso. destruct Hb as [Hne _]. exact (Hne Hh).
      * simpl. f_equal; lia.
    + destruct (decide (is_blow_at secret guess i)) as [Hb|Hb].
      * rewrite (checkGuess_step_blow _ _ _ _ Hb). simpl. f_equal; lia.
      * rewrite (checkGuess_step_miss _ _ _ _ _ Hc Hh Hb). reflexivity.
Qed.

(** C1. For strings [secret] and [guess] of equal length,
    [checkGuess secret guess] returns as [hit] the number of positions
    [i] with [secret[i] = guess[i]] and as [blow] the number of positions
    [i] with [secret[i] ≠ guess[i]] whose guessed character occurs
    somewhere in [secret]; and [checkGuess "1234" "1243"] is
    [{hit: 2, blow: 2}]. *)
Theorem checkGuess_counts :
  (∀ secret guess : string,
     String.length secret = String.length guess ->
     checkGuess secret guess =
       {| hit := count_hits secret guess;
          blow := count_blows secret guess |}) ∧
  checkGuess "1234" "1243" = {| hit := 2; blow := 2 |}.
Proof.
  split; [|reflexivity].
  intros secret guess Hlen. unfold checkGuess, count_hits, count_blows.
  rewrite checkGuess_fold; [reflexivity|].
  apply Forall_forall. intros i Hi. unfold positions in *.
  apply elem_of_seq in Hi. lia.
Qed.

Lemma checkGuess_counts_witness :
  String.length "1123" = String.length "3111" ∧
  checkGuess "1123" "3111" =
    {| hit := count_hits "1123" "3111"; blow := count_blows "1123" "3111" |}.
Proof.
  split; [reflexivity|].
  apply (proj1 checkGuess_counts "1123" "3111"). reflexivity.
Defined.

Example checkGuess_all_hit : checkGuess "1234" "1234" = {| hit := 4; blow := 0 |}.
Proof. reflexivity. Qed.

Example checkGuess_all_blow : checkGuess "1234" "4321" = {| hit := 0; blow := 4 |}.
Proof. reflexivity. Qed.

Example checkGuess_none : checkGuess "1234" "5678" = {| hit := 0; blow := 0 |}.
Proof. reflexivity. Qed.

(** C6. There are digit strings of equal length, each with a repeated
    digit, for which [checkGuess] reports more blows than the strict
    rule allows: for the secret [1222] and the guess [2111] it reports
    four, the strict rule two. *)
Theorem checkGuess_overcounts_blows :
  ∃ secret guess : string,
    String.length secret = String.length guess ∧
    digitString secret ∧ digitString guess ∧
    ¬ NoDup (chars secret) ∧ ¬ NoDup (chars guess) ∧
    (strictBlow secret guess < blow (checkGuess secret guess))%nat.
Proof.
  exists "1222", "2111".
  split; [reflexivity|].
  split; [repeat constructor|].
  split; [repeat constructor|].
  split.
  { intros H. apply NoDup_cons in H as [_ H].
    apply NoDup_cons in H as [H _]. apply H. left. }
  split.
  { intros H. apply NoDup_cons in H as [_ H].
    apply NoDup_cons in H as [H _]. apply H. left. }
  vm_compute. lia.
Qed.

(** ** validateGuess *)

Lemma digitsToEnd_spec (s : string) :
  digitsToEnd s = true ↔ digitString s.
Proof.
  unfold digitString, chars. induction s as [|c s IH]; simpl.
  - split; [constructor | reflexivity].
  - rewrite andb_true_iff, IH, Forall_cons. reflexivity.
Qed.

(** [/^\d+$/] accepts the non-empty strings made of digits. *)
Lemma testAllDigits_spec (s : string) :
  testAllDigits s = true ↔ s ≠ EmptyString ∧ digitString s.
Proof.
  destruct s as [|c s].
  - simpl. split; [discriminate | intros [H _]; contradiction].
  - change (testAllDigits (String c s)) with (digitsToEnd (String c s)).
    rewrite digitsToEnd_spec. split; [intros H; split; [discriminate | exact H] | tauto].
Qed.

Lemma remove_dups_length_le {A} `{EqDecision A} (l : list A) :
  (length (remove_dups l) <= length l)%nat.
Proof.
  induction l as [|x l IH]; simpl; [lia|].
  destruct (decide_rel _ _ _); simpl; lia.
Qed.

Lemma uniqueDigitsSize_le (guess : string) :
  (uniqueDigitsSize guess <= String.length guess)%nat.
Proof.
  unfold uniqueDigitsSize. rewrite <- chars_length.
  apply remove_dups_length_le.
Qed.

Lemma validateGuess_WrongLength guess config :
  Z.of_nat (String.length guess) ≠ digits config ->
  validateGuess guess config = Some WrongLength.
Proof.
  intros H. unfold validateGuess.
  destruct (Z.eqb_spec (Z.of_nat (String.length guess)) (digits config));
    [contradiction | reflexivity].
Qed.

Lemma validateGuess_after_length guess config :
  Z.of_nat (String.length guess) = digits config ->
  validateGuess guess config =
    if negb (testAllDigits guess) then Some NonDigitCharacter
    else if negb (allowDuplicate config) then
      if negb (Z.of_nat (uniqueDigitsSize guess) =? digits config)%Z
      then Some DuplicateNotAllowed else None
    else None.
Proof.
  intros H. unfold validateGuess.
  destruct (Z.eqb_spec (Z.of_nat (String.length guess)) (digits config));
    [reflexivity | contradiction].
Qed.

(** C8. For a configuration with at least one digit, [validateGuess]
    checks in this order: a length other than [digits] gives
    [WrongLength]; otherwise a character that is not a digit gives
    [NonDigitCharacter]; otherwise, when duplicates are not allowed,
    fewer distinct characters than [digits] gives [DuplicateNotAllowed];
    an input that passes the three checks gives no error.  In
    particular ["12a4"] with four digits gives [NonDigitCharacter]. *)
Theorem validateGuess_order (guess : string) (config : GameConfig) :
  (1 <= digits config)%Z ->
  (Z.of_nat (String.length guess) ≠ digits config ->
     validateGuess guess config = Some WrongLength) ∧
  (Z.of_nat (String.length guess) = digits config ->
   Exists (fun c => isDigit c = false) (chars guess) ->
     validateGuess guess config = Some NonDigitCharacter) ∧
  (Z.of_nat (String.length guess) = digits config ->
   digitString guess ->
   allowDuplicate config = false ->
   (Z.of_nat (uniqueDigitsSize guess) < digits config)%Z ->
     validateGuess guess config = Some DuplicateNotAllowed) ∧
  (Z.of_nat (String.length guess) = digits config ->
   digitString guess ->
   (allowDuplicate config = true ∨
    (digits config <= Z.of_nat (uniqueDigitsSize guess))%Z) ->
     validateGuess guess config = None) ∧
  validateGuess "12a4" {| digits := 4; allowDuplicate := false |}
    = Some NonDigitCharacter.
Proof.
  intros Hpos.
  assert (Hall : Z.of_nat (String.length guess) = digits config ->
                 digitString guess -> testAllDigits guess = true).
  { intros Hlen Hdig. apply testAllDigits_spec. split; [|exact Hdig].
    intros ->. simpl in Hlen. lia. }
  split; [apply validateGuess_WrongLength|].
  split.
  { intros Hlen Hex. rewrite validateGuess_after_length by exact Hlen.
    destruct (testAllDigits guess) eqn:Htest; [|reflexivity].
    exfalso. apply testAllDigits_spec in Htest as [_ Hdig].
    unfold digitString in Hdig.
    apply Exists_exists in Hex as (c & Hc & Hfalse).
    rewrite Forall_forall in Hdig. specialize (Hdig c Hc). congruence. }
  split.
  { intros Hlen Hdig Hdup Hfew.
    rewrite validateGuess_after_length by exact Hlen.
    rewrite (Hall Hlen Hdig), Hdup. simpl.
    destruct (Z.eqb_spec (Z.of_nat (uniqueDigitsSize guess)) (digits config));
      [lia | reflexivity]. }
  split; [|reflexivity].
  intros Hlen Hdig Hok.
  rewrite validateGuess_after_length by exact Hlen.
  rewrite (Hall Hlen Hdig). simpl.
  destruct (allowDuplicate config); [reflexivity|]. simpl.
  destruct Hok as [Hok|Hok]; [discriminate|].
  pose proof (uniqueDigitsSize_le guess).
  destruct (Z.eqb_spec (Z.of_nat (uniqueDigitsSize guess)) (digits config));
    [reflexivity | lia].
Qed.

Lemma validateGuess_order_witness :
  (1 <= digits defaultConfig)%Z ∧
  validateGuess "123" defaultConfig = Some WrongLength ∧
  validateGuess "1123" defaultConfig = Some DuplicateNotAllowed ∧
  validateGuess "1234" defaultConfig = None ∧
  validateGuess "1111" {| digits := 4; allowDuplicate := true |} = None.
Proof.
  assert (H4 : (1 <= 4)%Z) by lia.
  split; [exact H4|].
  split.
  { apply (proj1 (validateGuess_order "123" defaultConfig H4)).
    simpl. lia. }
  split.
  { apply (proj1 (proj2 (proj2 (validateGuess_order "1123" defaultConfig H4)))).
    - reflexivity.
    - repeat constructor.
    - reflexivity.
    - vm_compute. reflexivity. }
  split.
  { apply (proj1 (proj2 (proj2 (proj2
             (validateGuess_order "1234" defaultConfig H4))))).
    - reflexivity.
    - repeat constructor.
    - right. vm_compute. discriminate. }
  apply (proj1 (proj2 (proj2 (proj2
           (validateGuess_order "1111"
              {| digits := 4; allowDuplicate := true |} H4))))).
  - reflexivity.
  - repeat constructor.
  - left. reflexivity.
Defined.

(** ** generateRandomSecret *)

Lemma floorRandomTimes_lt (k : Z) (n : nat) :
  (0 <= k < randomRange)%Z -> (0 < n)%nat -> (floorRandomTimes k n < n)%nat.
Proof.
  intros Hk Hn. unfold floorRandomTimes, randomRange in *.
  assert (0 <= k * Z.of_nat n / 2 ^ 53 < Z.of_nat n)%Z as Hq.
  { split.
    - apply Z.div_pos; nia.
    - apply Z.div_lt_upper_bound; nia. }
  lia.
Qed.

Lemma pretty_oneDigit (d : Z) :
  oneDigit d ->
  pretty d = String (digitChar d) EmptyString ∧ isDigit (digitChar d) = true.
Proof.
  unfold oneDigit. intros Hd.
  assert (d = 0 ∨ d = 1 ∨ d = 2 ∨ d = 3 ∨ d = 4 ∨
          d = 5 ∨ d = 6 ∨ d = 7 ∨ d = 8 ∨ d = 9)%Z as Hcases by lia.
  repeat (destruct Hcases as [->|Hcases]; [split; reflexivity|]).
  subst d. split; reflexivity.
Qed.

Lemma digitChar_inj (d1 d2 : Z) :
  oneDigit d1 -> oneDigit d2 -> digitChar d1 = digitChar d2 -> d1 = d2.
Proof.
  intros H1 H2 Heq.
  apply pretty_oneDigit in H1 as [H1 _]. apply pretty_oneDigit in H2 as [H2 _].
  apply (inj pretty). rewrite H1, H2, Heq. reflexivity.
Qed.

Lemma chars_join (chosen : list Z) :
  Forall oneDigit chosen ->
  chars (join (Some <$> chosen)) = digitChar <$> chosen.
Proof.
  induction 1 as [|d l Hd Hl IH]; [reflexivity|].
  simpl. destruct (pretty_oneDigit d Hd) as [-> _].
  unfold chars in *. simpl. f_equal. exact IH.
Qed.

Lemma pool_oneDigit (d : Z) : d ∈ availableDigits initialGen -> oneDigit d.
Proof.
  unfold oneDigit. simpl. intros H.
  repeat (apply elem_of_cons in H as [->|H]; [lia|]).
  inversion H.
Qed.

Lemma generate_inv_initial allowDup : generate_inv allowDup [] initialGen.
Proof.
  split; [reflexivity|]. split; [constructor|].
  destruct allowDup; reflexivity.
Qed.

Section GenerateProofs.
Variable rand : nat -> Z.
Hypothesis rand_range : ∀ i, (0 <= rand i < randomRange)%Z.

(** One iteration keeps the invariant and chooses one more digit; without
    duplicates this needs a digit left in the pool. *)
Lemma generate_body_inv allowDup chosen st :
  generate_inv allowDup chosen st ->
  (allowDup = false -> (length chosen < 10)%nat) ->
  ∃ d, generate_inv allowDup (chosen ++ [d])
         (generate_body rand allowDup st).
Proof.
  intros (Hres & Hdig & Hpool) Hroom. destruct allowDup.
  - pose proof (floorRandomTimes_lt (rand (calls st)) 10
                  (rand_range _) ltac:(lia)) as Hlt.
    destruct (lookup_lt_is_Some_2 (availableDigits st)
                (floorRandomTimes (rand (calls st)) 10)) as [d Hd].
    { rewrite Hpool. simpl. exact Hlt. }
    exists d. unfold generate_body. rewrite Hd.
    split; [|split].
    + simpl. rewrite Hres, fmap_app. reflexivity.
    + apply Forall_app. split; [exact Hdig|].
      apply Forall_singleton. apply pool_oneDigit.
      rewrite <- Hpool. eapply list_elem_of_lookup_2. exact Hd.
    + exact Hpool.
  - specialize (Hroom eq_refl).
    assert (length chosen + length (availableDigits st) = 10)%nat as Hlen.
    { apply Permutation_length in Hpool. rewrite length_app in Hpool.
      exact Hpool. }
    set (idx := floorRandomTimes (rand (calls st))
                  (length (availableDigits st))).
    assert (idx < length (availableDigits st))%nat as Hlt.
    { apply floorRandomTimes_lt; [apply rand_range | lia]. }
    destruct (lookup_lt_is_Some_2 _ _ Hlt) as [d Hd].
    exists d. unfold generate_body. fold idx. rewrite Hd.
    assert ((chosen ++ [d]) ++ delete idx (availableDigits st)
              ≡ₚ availableDigits initialGen)%list as Hperm.
    { rewrite <- Hpool, <- app_assoc. simpl.
      apply Permutation_app_head. symmetry.
      apply delete_Permutation. exact Hd. }
    split; [|split].
    + simpl. rewrite Hres, fmap_app. reflexivity.
    + apply Forall_app. split; [exact Hdig|].
      apply Forall_singleton. apply pool_oneDigit.
      rewrite <- Hpool. apply elem_of_app. right.
      eapply list_elem_of_lookup_2. exact Hd.
    + exact Hperm.
Qed.

(** With enough iterations allowed, the loop ends, and it ends with
    exactly [digits] entries. *)
Lemma generate_loop_total config :
  (allowDuplicate config = false -> (digits config <= 10)%Z) ->
  ∀ fuel chosen st,
    generate_inv (allowDuplicate config) chosen st ->
    (Z.of_nat (length chosen) <= digits config)%Z ->
    (digits config - Z.of_nat (length chosen) <= Z.of_nat fuel)%Z ->
    ∃ chosen' st',
      generate_loop rand fuel config st = Some st' ∧
      generate_inv (allowDuplicate config) chosen' st' ∧
      Z.of_nat (length chosen') = digits config.
Proof.
  intros Hcap. induction fuel as [|fuel IH]; intros chosen st Hinv Hle Hfuel.
  - exists chosen, st. simpl.
    pose proof Hinv as (Hres & _). rewrite Hres, length_fmap.
    rewrite bool_decide_eq_false_2 by lia.
    split; [reflexivity|]. split; [exact Hinv | lia].
  - simpl. pose proof Hinv as (Hres & _). rewrite Hres, length_fmap.
    destruct (decide (Z.of_nat (length chosen) < digits config)%Z) as [Hlt|Hge].
    + rewrite bool_decide_eq_true_2 by exact Hlt.
      destruct (generate_body_inv _ _ _ Hinv) as [d Hinv'].
      { intros Hdup. specialize (Hcap Hdup). lia. }
      apply (IH (chosen ++ [d])%list); [exact Hinv' | |];
        rewrite length_app; simpl; lia.
    + rewrite bool_decide_eq_false_2 by exact Hge.
      exists chosen, st. split; [reflexivity|]. split; [exact Hinv | lia].
Qed.

(** C9. With [Math.random] in its range and a configuration of at least
    one digit: when duplicates are not allowed and [digits] exceeds 10,
    [generateRandomSecret] throws [InvalidConfiguration]; otherwise it
    returns a string of exactly [digits] characters, all of them decimal
    digits, and pairwise distinct when duplicates are not allowed. *)
Theorem generateRandomSecret_spec (config : GameConfig) :
  (1 <= digits config)%Z ->
  (allowDuplicate config = false -> (10 < digits config)%Z ->
     generateRandomSecret rand config = Some (Err InvalidConfiguration)) ∧
  (allowDuplicate config = true ∨ (digits config <= 10)%Z ->
     ∃ s : string,
       generateRandomSecret rand config = Some (Ok s) ∧
       Z.of_nat (String.length s) = digits config ∧
       digitString s ∧
       (allowDuplicate config = false -> NoDup (chars s))).
Proof.
  intros Hpos. split.
  - intros Hdup Hbig. unfold generateRandomSecret. rewrite Hdup. simpl.
    destruct (Z.ltb_spec 10 (digits config)); [reflexivity | lia].
  - intros Hok. unfold generateRandomSecret.
    assert (negb (allowDuplicate config) && (10 <? digits config)%Z = false)
      as ->.
    { destruct Hok as [->|Hok]; [reflexivity|].
      apply andb_false_iff. right. apply Z.ltb_ge. exact Hok. }
    destruct (generate_loop_total config) with
      (fuel := Z.to_nat (digits config)) (chosen := @nil Z) (st := initialGen)
      as (chosen & st & Hloop & (Hres & Hdig & Hpool) & Hlen).
    { intros Hdup. destruct Hok as [Hok|Hok]; [congruence | exact Hok]. }
    { apply generate_inv_initial. }
    { simpl. lia. }
    { simpl. lia. }
    rewrite Hloop. exists (join (result st)).
    split; [reflexivity|].
    assert (chars (join (result st)) = digitChar <$> chosen) as Hchars.
    { rewrite Hres. apply chars_join. exact Hdig. }
    split; [|split].
    + rewrite <- chars_length, Hchars, length_fmap. exact Hlen.
    + unfold digitString. rewrite Hchars. apply Forall_fmap.
      eapply Forall_impl; [exact Hdig|].
      intros d Hd. apply pretty_oneDigit. exact Hd.
    + intros Hdup. rewrite Hdup in Hpool. rewrite Hchars.
      apply NoDup_fmap_2_strong.
      * intros d1 d2 H1 H2. apply digitChar_inj.
        -- rewrite Forall_forall in Hdig. exact (Hdig d1 H1).
        -- rewrite Forall_forall in Hdig. exact (Hdig d2 H2).
      * assert (NoDup (chosen ++ availableDigits st)%list) as Hnd.
        { rewrite Hpool. simpl. repeat constructor;
            repeat (rewrite elem_of_cons); rewrite ?elem_of_nil; lia. }
        apply NoDup_app in Hnd as [Hnd _]. exact Hnd.
Qed.

End GenerateProofs.

Lemma generateRandomSecret_spec_witness :
  (∀ i, 0 <= sampleRand i < randomRange)%Z ∧
  (1 <= digits defaultConfig)%Z ∧
  ∃ s : string,
    generateRandomSecret sampleRand defaultConfig = Some (Ok s) ∧
    Z.of_nat (String.length s) = digits defaultConfig ∧
    digitString s ∧
    (allowDuplicate defaultConfig = false -> NoDup (chars s)).
Proof.
  assert (Hrand : ∀ i, (0 <= sampleRand i < randomRange)%Z).
  { intros i. unfold sampleRand. apply Z.mod_pos_bound. reflexivity. }
  assert (H4 : (1 <= digits defaultConfig)%Z) by (simpl; lia).
  split; [exact Hrand|]. split; [exact H4|].
  apply (proj2 (generateRandomSecret_spec sampleRand Hrand defaultConfig H4)).
  right. simpl. lia.
Defined.

Example generateRandomSecret_sample :
  generateRandomSecret sampleRand defaultConfig = Some (Ok "1738").
Proof. vm_compute. reflexivity. Qed.

Example generateRandomSecret_eleven :
  generateRandomSecret sampleRand {| digits := 11; allowDuplicate := false |}
    = Some (Err InvalidConfiguration).
Proof. reflexivity. Qed.

(** ** The room service, call by call *)

Lemma updateDoc_found roomId fields (s : Store) room :
  s !! roomId = Some room ->
  updateDoc roomId fields s = (Ok tt, <[roomId := fields room]> s).
Proof. intros H. unfold updateDoc. rewrite H. reflexivity. Qed.

Lemma guestIs_true room playerUid :
  guestIs room playerUid = true ↔
  ∃ g, guest room = Some g ∧ uid g = playerUid.
Proof.
  unfold guestIs. rewrite bool_decide_eq_true.
  destruct (guest room) as [g|]; simpl.
  - split.
    + intros [= H]. exists g. auto.
    + intros (g' & [= <-] & H). congruence.
  - split; [discriminate | intros (g' & H & _); discriminate].
Qed.

Lemma guestIs_false room playerUid :
  guestIs room playerUid = false ↔ uid <$> guest room ≠ Some playerUid.
Proof. unfold guestIs. apply bool_decide_eq_false. Qed.

(** *** joinRoom *)

(** C7. [joinRoom] throws [NotFound] when no record has the id; with a
    record, [AlreadyFull] when a guest is present, whatever the status;
    with no guest, [NotJoinable] when the status is not [waiting]; in
    these cases it writes nothing.  Otherwise it returns [true] and the
    record gets a guest with the given uid, not ready, with no guesses,
    while host and config stay as they were. *)
Theorem joinRoom_spec (s : Store) (roomId guestUid : string) (now : Z) :
  (s !! roomId = None ->
     joinRoom roomId guestUid now s = (Err NotFound, s)) ∧
  (∀ room g,
     s !! roomId = Some room -> guest room = Some g ->
     joinRoom roomId guestUid now s = (Err AlreadyFull, s)) ∧
  (∀ room,
     s !! roomId = Some room -> guest room = None ->
     status room ≠ waiting ->
     joinRoom roomId guestUid now s = (Err NotJoinable, s)) ∧
  (∀ room,
     s !! roomId = Some room -> guest room = None ->
     status room = waiting ->
     ∃ room',
       joinRoom roomId guestUid now s = (Ok true, <[roomId := room']> s) ∧
       (∃ g, guest room' = Some g ∧ uid g = guestUid ∧
             role g = guest_role ∧ isReady g = false ∧
             secret g = None ∧ guesses g = []) ∧
       host room' = host room ∧ config room' = config room ∧
       status room' = waiting ∧ id room' = id room ∧
       currentTurn room' = currentTurn room).
Proof.
  unfold joinRoom, bind, getDoc, throw, ret.
  split; [intros ->; reflexivity|].
  split; [intros room g -> ->; reflexivity|].
  split.
  - intros room -> -> Hst.
    rewrite bool_decide_eq_true_2 by exact Hst. reflexivity.
  - intros room Hroom Hguest Hst. rewrite Hroom, Hguest.
    rewrite bool_decide_eq_false_2 by (intros H; exact (H Hst)).
    rewrite (updateDoc_found _ _ _ _ Hroom).
    eexists. split; [reflexivity|]. simpl.
    split; [eexists; repeat split|]. auto.
Qed.

Lemma joinRoom_spec_witness :
  createdStore !! "room1" ≠ None ∧
  joinRoom "room1" "carol" 120 joinedStore = (Err AlreadyFull, joinedStore) ∧
  joinRoom "room2" "bob" 120 createdStore = (Err NotFound, createdStore) ∧
  fst (joinRoom "room1" "bob" 110 createdStore) = Ok true.
Proof.
  split; [vm_compute; discriminate|].
  split.
  { eapply (proj1 (proj2 (joinRoom_spec joinedStore "room1" "carol" 120)));
      vm_compute; reflexivity. }
  split.
  { apply (proj1 (joinRoom_spec createdStore "room2" "bob" 120)).
    vm_compute. reflexivity. }
  edestruct (proj2 (proj2 (proj2 (joinRoom_spec createdStore "room1" "bob" 110))))
    as (room' & -> & _); [vm_compute; reflexivity | reflexivity.. | reflexivity].
Defined.

(** *** A uid that belongs to neither player *)

(** C10. On an existing record whose host and guest both have another
    uid (or that has no guest), [setPlayerSecret] and
    [updatePlayerReady] return without throwing and leave the whole
    store, [updatedAt] included, as it was. *)
Theorem stranger_is_ignored (s : Store) (roomId playerUid : string)
    (room : Room) (newSecret : string) (ready : bool) (now : Z) :
  s !! roomId = Some room ->
  uid (host room) ≠ playerUid ->
  uid <$> guest room ≠ Some playerUid ->
  setPlayerSecret roomId playerUid newSecret now s = (Ok tt, s) ∧
  updatePlayerReady roomId playerUid ready now s = (Ok tt, s).
Proof.
  intros Hroom Hhost Hguest.
  apply guestIs_false in Hguest.
  unfold setPlayerSecret, updatePlayerReady, bind, getDoc, ret.
  rewrite Hroom, Hguest.
  rewrite bool_decide_eq_false_2 by exact Hhost.
  split; reflexivity.
Qed.

Lemma stranger_is_ignored_witness :
  joinedStore !! "room1" ≠ None ∧
  setPlayerSecret "room1" "mallory" "0000" 200 joinedStore
    = (Ok tt, joinedStore) ∧
  updatePlayerReady "room1" "mallory" true 200 joinedStore
    = (Ok tt, joinedStore).
Proof.
  split; [vm_compute; discriminate|].
  eapply (stranger_is_ignored joinedStore "room1" "mallory").
  - vm_compute. reflexivity.
  - vm_compute. discriminate.
  - vm_compute. discriminate.
Defined.

(** *** submitGuess *)

Lemma submitGuess_host (s : Store) roomId playerUid guess now room :
  s !! roomId = Some room ->
  uid (host room) = playerUid ->
  submitGuess roomId playerUid guess now s =
    (Ok tt,
     <[roomId :=
         set_updatedAt now
           (set_currentTurn guest_role
              (in_host (set_guesses (guesses (host room) ++ [guess])%list)
                       room))]> s).
Proof.
  intros Hroom Hhost. unfold submitGuess, bind, getDoc, ret.
  rewrite Hroom. rewrite bool_decide_eq_true_2 by exact Hhost. simpl.
  rewrite (updateDoc_found _ _ _ _ Hroom). reflexivity.
Qed.

Lemma submitGuess_guest (s : Store) roomId playerUid guess now room g :
  s !! roomId = Some room ->
  uid (host room) ≠ playerUid ->
  guest room = Some g -> uid g = playerUid ->
  submitGuess roomId playerUid guess now s =
    (Ok tt,
     <[roomId :=
         set_updatedAt now
           (set_currentTurn host_role
              (in_guest (set_guesses (guesses g ++ [guess])%list) room))]> s).
Proof.
  intros Hroom Hhost Hg Huid. unfold submitGuess, bind, getDoc, ret.
  rewrite Hroom. rewrite bool_decide_eq_false_2 by exact Hhost.
  assert (guestIs room playerUid = true) as ->.
  { apply guestIs_true. exists g. auto. }
  simpl. rewrite Hg. simpl.
  rewrite (updateDoc_found _ _ _ _ Hroom). reflexivity.
Qed.

Lemma submitGuess_stranger (s : Store) roomId playerUid guess now room :
  s !! roomId = Some room ->
  uid (host room) ≠ playerUid ->
  uid <$> guest room ≠ Some playerUid ->
  submitGuess roomId playerUid guess now s = (Err PlayerNotFound, s).
Proof.
  intros Hroom Hhost Hguest. apply guestIs_false in Hguest.
  unfold submitGuess, bind, getDoc, throw.
  rewrite Hroom, Hguest. rewrite bool_decide_eq_false_2 by exact Hhost.
  reflexivity.
Qed.

(** C2. On an existing record, whatever its [currentTurn]: a caller with
    the host's uid gets the guess appended to the host's guesses, the
    guest untouched and [currentTurn] set to guest; a caller with the
    guest's uid (and not the host's) gets the guess appended to the
    guest's guesses, the host untouched and [currentTurn] set to host; a
    caller with neither uid gets [PlayerNotFound] and the store is left
    as it was. *)
Theorem submitGuess_spec (s : Store) (roomId playerUid guess : string)
    (now : Z) (room : Room) :
  s !! roomId = Some room ->
  (uid (host room) = playerUid ->
     ∃ room',
       submitGuess roomId playerUid guess now s
         = (Ok tt, <[roomId := room']> s) ∧
       guesses (host room') = (guesses (host room) ++ [guess])%list ∧
       guest room' = guest room ∧
       currentTurn room' = guest_role) ∧
  (∀ g, uid (host room) ≠ playerUid ->
        guest room = Some g -> uid g = playerUid ->
     ∃ room' g',
       submitGuess roomId playerUid guess now s
         = (Ok tt, <[roomId := room']> s) ∧
       guest room' = Some g' ∧
       guesses g' = (guesses g ++ [guess])%list ∧
       host room' = host room ∧
       currentTurn room' = host_role) ∧
  (uid (host room) ≠ playerUid -> uid <$> guest room ≠ Some playerUid ->
     submitGuess roomId playerUid guess now s = (Err PlayerNotFound, s)).
Proof.
  intros Hroom. split; [|split].
  - intros Hhost. eexists. split.
    + apply submitGuess_host; [exact Hroom | exact Hhost].
    + simpl. auto.
  - intros g Hhost Hg Huid. eexists. eexists. split.
    + eapply submitGuess_guest; eauto.
    + simpl. rewrite Hg. simpl. auto.
  - apply submitGuess_stranger. exact Hroom.
Qed.

Lemma submitGuess_spec_witness :
  joinedStore !! "room1" = Some joinedRoom ∧
  submitGuess "room1" "mallory" "1234" 200 joinedStore
    = (Err PlayerNotFound, joinedStore) ∧
  fst (submitGuess "room1" "alice" "1234" 200 joinedStore) = Ok tt ∧
  fst (submitGuess "room1" "bob" "1234" 200 joinedStore) = Ok tt.
Proof.
  assert (Hroom : joinedStore !! "room1" = Some joinedRoom)
    by (vm_compute; reflexivity).
  split; [exact Hroom|].
  split; [|split].
  - apply (proj2 (proj2 (submitGuess_spec joinedStore "room1" "mallory"
                           "1234" 200 joinedRoom Hroom)));
      vm_compute; discriminate.
  - destruct (proj1 (submitGuess_spec joinedStore "room1" "alice"
                       "1234" 200 joinedRoom Hroom))
      as (room' & Heq & _); [reflexivity|].
    rewrite Heq. reflexivity.
  - destruct (proj1 (proj2 (submitGuess_spec joinedStore "room1" "bob"
                              "1234" 200 joinedRoom Hroom)) bob)
      as (room' & g' & Heq & _);
      [vm_compute; discriminate | reflexivity | reflexivity |].
    rewrite Heq. reflexivity.
Defined.

(** ** Sequences of calls *)

Ltac unfold_service :=
  unfold exec, after, createRoom, joinRoom, updatePlayerReady,
    setPlayerSecret, startGame, submitGuess, finishGame, deleteRoom,
    updatePlayerActive, bind, getDoc, setDoc, updateDoc, deleteDoc, ret,
    throw; simpl.

Ltac split_tests :=
  repeat match goal with
  | |- context [bool_decide ?P] => destruct (bool_decide_reflect P)
  | |- context [guestIs ?r ?u] => destruct (guestIs r u) eqn:?
  | |- context [match guest ?r with _ => _ end] => destruct (guest r) eqn:?
  | |- context [if ?b then _ else _] => destruct b eqn:?
  end; simpl.

Ltac tests_to_props :=
  repeat match goal with
  | H : guestIs _ _ = true |- _ => apply bool_decide_eq_true in H
  | H : guestIs _ _ = false |- _ => apply guestIs_false in H
  | H : negb _ = true |- _ => apply negb_true_iff in H
  | H : negb _ = false |- _ => apply negb_false_iff in H
  | H : _ || _ = false |- _ => apply orb_false_iff in H as [? ?]
  end.

(** What a call does to a room it does not delete: the room is still
    there, changed in one of the ways of [room_change]. *)
Lemma exec_room_change (s : Store) op roomId room :
  admissible s op ->
  s !! roomId = Some room ->
  op ≠ DeleteRoom roomId ->
  ∃ room', exec op s !! roomId = Some room' ∧
           room_change roomId room op room'.
Proof.
  intros Hadm Hroom Hdel.
  assert (Hnone : ∃ room', s !! roomId = Some room' ∧
                           room_change roomId room op room').
  { exists room. split; [exact Hroom | constructor]. }
  destruct op as [r data now | r guestUid now | r playerUid newSecret now
                 | r playerUid ready now | r now | r playerUid guess now
                 | r now | r | r playerUid now];
    (destruct (decide (r = roomId)) as [->|Hne];
     [| unfold_service;
        try (destruct (s !! r) as [other|] eqn:Hother; simpl);
        split_tests;
        rewrite ?Hother; simpl;
        rewrite ?lookup_insert_ne, ?lookup_delete_ne by exact Hne;
        exact Hnone ]).
  - simpl in Hadm. congruence.
  - unfold_service. rewrite Hroom. split_tests; try exact Hnone.
    rewrite Hroom. simpl. rewrite lookup_insert_eq.
    eexists. split; [reflexivity|]. tests_to_props.
    apply change_join; [assumption|].
    destruct (decide (status room = waiting)); [assumption | contradiction].
  - unfold_service. rewrite Hroom. split_tests; try exact Hnone;
      rewrite Hroom; simpl; rewrite lookup_insert_eq;
      (eexists; split; [reflexivity|]); tests_to_props.
    + apply change_secret_host; assumption.
    + apply change_secret_guest; assumption.
  - unfold_service. rewrite Hroom. split_tests; try exact Hnone;
      rewrite Hroom; simpl; rewrite lookup_insert_eq;
      (eexists; split; [reflexivity|]); tests_to_props.
    + apply change_ready_host; assumption.
    + apply change_ready_guest; assumption.
  - unfold_service. rewrite Hroom.
    destruct (negb (isReady (host room)) || guestNotReady room) eqn:Hready;
      simpl; [exact Hnone|].
    destruct (secretMissing (host room) || guestSecretMissing room)
      eqn:Hsecrets; simpl; [exact Hnone|].
    rewrite Hroom. simpl. rewrite lookup_insert_eq.
    eexists. split; [reflexivity|]. tests_to_props.
    apply change_start; assumption.
  - unfold_service. rewrite Hroom.
    destruct (bool_decide_reflect (uid (host room) = playerUid)) as [Hh|Hh];
      simpl.
    + rewrite Hroom. simpl. rewrite lookup_insert_eq.
      eexists. split; [reflexivity|]. apply change_guess_host. exact Hh.
    + destruct (guestIs room playerUid) eqn:Hg; simpl; [|exact Hnone].
      rewrite Hroom. simpl. rewrite lookup_insert_eq.
      eexists. split; [reflexivity|]. tests_to_props.
      apply change_guess_guest; assumption.
  - unfold_service. rewrite Hroom. simpl. rewrite lookup_insert_eq.
    eexists. split; [reflexivity|]. apply change_finish.
  - congruence.
  - unfold_service. rewrite Hroom. split_tests; try exact Hnone;
      rewrite Hroom; simpl; rewrite lookup_insert_eq;
      (eexists; split; [reflexivity|]); tests_to_props.
    + apply change_active_host; assumption.
    + apply change_active_guest; assumption.
Qed.

Lemma exec_delete (s : Store) roomId : exec (DeleteRoom roomId) s !! roomId = None.
Proof. unfold_service. apply lookup_delete_eq. Qed.

(** A call and the records it leaves and finds under one id. *)
Lemma exec_lookup_change (s : Store) op roomId room room' :
  admissible s op ->
  s !! roomId = Some room ->
  exec op s !! roomId = Some room' ->
  room_change roomId room op room'.
Proof.
  intros Hadm Hroom Hroom'.
  assert (op = DeleteRoom roomId ∨ op ≠ DeleteRoom roomId) as [->|Hdel].
  { destruct op as [| | | | | | |r|]; try (right; discriminate).
    destruct (decide (r = roomId)) as [->|Hne];
      [left; reflexivity | right; congruence]. }
  - rewrite exec_delete in Hroom'. discriminate.
  - destruct (exec_room_change s op roomId room Hadm Hroom Hdel)
      as (room'' & Hlook & Hchange).
    congruence.
Qed.

Lemma room_change_status roomId room op room' :
  room_change roomId room op room' ->
  status room' = status room ∨
  (status room' = playing ∧ ∃ now, op = StartGame roomId now) ∨
  (status room' = finished ∧ ∃ now, op = FinishGame roomId now).
Proof.
  destruct 1; simpl; eauto.
Qed.

(** *** Status *)

(** C4, as the code has it.  A call changes the status of a record that
    survives it in two ways only: [startGame] sets it to [playing],
    from any status, and [finishGame] sets it to [finished].  So a
    record that has left [waiting] never returns to it while it is not
    deleted; it can return from [finished] to [playing], through
    [startGame]. *)
Theorem status_transitions :
  (∀ (s : Store) op roomId room room',
     admissible s op ->
     s !! roomId = Some room ->
     exec op s !! roomId = Some room' ->
     status room' = status room ∨
     (status room' = playing ∧ ∃ now, op = StartGame roomId now) ∨
     (status room' = finished ∧ ∃ now, op = FinishGame roomId now)) ∧
  (∀ (s s' : Store) ops roomId room,
     steps s ops s' ->
     Forall (fun op => op ≠ DeleteRoom roomId) ops ->
     s !! roomId = Some room ->
     status room ≠ waiting ->
     ∃ room', s' !! roomId = Some room' ∧ status room' ≠ waiting).
Proof.
  split.
  - intros s op roomId room room' Hadm Hroom Hroom'.
    apply room_change_status.
    exact (exec_lookup_change s op roomId room room' Hadm Hroom Hroom').
  - intros s s' ops roomId room Hsteps. revert room.
    induction Hsteps as [s | s op ops s' Hadm Hsteps IH];
      intros room Hkeep Hroom Hst.
    + exists room. auto.
    + apply Forall_cons in Hkeep as [Hop Hkeep].
      destruct (exec_room_change s op roomId room Hadm Hroom Hop)
        as (room1 & Hroom1 & Hchange).
      apply (IH room1 Hkeep Hroom1).
      destruct (room_change_status _ _ _ _ Hchange)
        as [Heq | [[Heq _] | [Heq _]]]; congruence.
Qed.

Lemma steps_playedToTheEnd : steps ∅ playedToTheEnd finishedStore.
Proof.
  unfold finishedStore, playedToTheEnd.
  repeat (apply steps_cons; [simpl; auto|]).
  apply steps_nil.
Qed.

Lemma finishedStore_status :
  status <$> finishedStore !! "room1" = Some finished.
Proof. vm_compute. reflexivity. Qed.

(** A finished game is started again: the status goes from [finished]
    back to [playing]. *)
Lemma startGame_reopens_finished :
  steps ∅ playedToTheEnd finishedStore ∧
  finishedStore !! "room1" = Some finishedRoom ∧
  status <$> finishedStore !! "room1" = Some finished ∧
  fst (startGame "room1" 180 finishedStore) = Ok tt ∧
  status <$> exec (StartGame "room1" 180) finishedStore !! "room1"
    = Some playing.
Proof.
  split; [exact steps_playedToTheEnd|].
  split; [vm_compute; reflexivity|].
  split; [exact finishedStore_status|].
  split; vm_compute; reflexivity.
Qed.

Lemma status_transitions_witness :
  finishedStore !! "room1" = Some finishedRoom ∧
  status finishedRoom ≠ waiting ∧
  ∃ room', exec (StartGame "room1" 180) finishedStore !! "room1" = Some room' ∧
           status room' ≠ waiting.
Proof.
  assert (Hroom : finishedStore !! "room1" = Some finishedRoom)
    by (vm_compute; reflexivity).
  assert (Hst : status finishedRoom ≠ waiting) by discriminate.
  split; [exact Hroom|]. split; [exact Hst|].
  apply (proj2 status_transitions finishedStore
           (exec (StartGame "room1" 180) finishedStore)
           [StartGame "room1" 180] "room1" finishedRoom).
  - apply steps_cons; [exact I | apply steps_nil].
  - repeat constructor. discriminate.
  - exact Hroom.
  - exact Hst.
Defined.

(** *** Secrets *)

Lemma setPlayerSecret_host (s : Store) roomId playerUid newSecret now room :
  s !! roomId = Some room ->
  uid (host room) = playerUid ->
  setPlayerSecret roomId playerUid newSecret now s =
    (Ok tt,
     <[roomId := set_updatedAt now (in_host (set_secret newSecret) room)]> s).
Proof.
  intros Hroom Hhost. unfold setPlayerSecret, bind, getDoc.
  rewrite Hroom. rewrite bool_decide_eq_true_2 by exact Hhost.
  rewrite (updateDoc_found _ _ _ _ Hroom). reflexivity.
Qed.

Lemma setPlayerSecret_guest (s : Store) roomId playerUid newSecret now room :
  s !! roomId = Some room ->
  uid (host room) ≠ playerUid ->
  uid <$> guest room = Some playerUid ->
  setPlayerSecret roomId playerUid newSecret now s =
    (Ok tt,
     <[roomId := set_updatedAt now (in_guest (set_secret newSecret) room)]> s).
Proof.
  intros Hroom Hhost Hguest. unfold setPlayerSecret, bind, getDoc.
  rewrite Hroom. rewrite bool_decide_eq_false_2 by exact Hhost.
  unfold guestIs. rewrite bool_decide_eq_true_2 by exact Hguest.
  rewrite (updateDoc_found _ _ _ _ Hroom). reflexivity.
Qed.

Lemma room_change_host_secret roomId room op room' :
  room_change roomId room op room' ->
  secret (host room') = secret (host room) ∨
  ∃ newSecret now,
    op = SetPlayerSecret roomId (uid (host room)) newSecret now ∧
    secret (host room') = Some newSecret.
Proof.
  destruct 1; simpl; subst; eauto.
Qed.

Lemma room_change_guest_secret roomId room op room' g :
  room_change roomId room op room' ->
  guest room = Some g ->
  ∃ g', guest room' = Some g' ∧ uid g' = uid g ∧
        (secret g' = secret g ∨
         ∃ newSecret now,
           op = SetPlayerSecret roomId (uid g) newSecret now ∧
           secret g' = Some newSecret).
Proof.
  destruct 1; intros Hg; simpl; rewrite ?Hg; simpl; eauto.
  - congruence.
  - rewrite Hg in *. simpl in *. simplify_eq. eauto 10.
Qed.

(** ["alice"] sets her secret to [1234] and then to [5678]: the second
    call replaces the first secret. *)
Lemma setPlayerSecret_overwrites :
  (secret ∘ host) <$> firstSecretStore !! "room1" = Some (Some "1234") ∧
  fst (setPlayerSecret "room1" "alice" "5678" 130 firstSecretStore) = Ok tt ∧
  (secret ∘ host) <$> secondSecretStore !! "room1" = Some (Some "5678").
Proof. repeat split; vm_compute; reflexivity. Qed.

(** C5, as the code has it.  [setPlayerSecret], called with the uid of
    the host or of the guest, sets that player's secret to the new
    value whether or not one was set before; and no other call changes
    the secret of a player of a record that survives it. *)
Theorem secret_changes (s : Store) (roomId : string) (room : Room) :
  s !! roomId = Some room ->
  (∀ newSecret now,
     ∃ room',
       setPlayerSecret roomId (uid (host room)) newSecret now s
         = (Ok tt, <[roomId := room']> s) ∧
       secret (host room') = Some newSecret) ∧
  (∀ g newSecret now,
     guest room = Some g -> uid (host room) ≠ uid g ->
     ∃ room' g',
       setPlayerSecret roomId (uid g) newSecret now s
         = (Ok tt, <[roomId := room']> s) ∧
       guest room' = Some g' ∧ secret g' = Some newSecret) ∧
  (∀ op room',
     admissible s op ->
     exec op s !! roomId = Some room' ->
     (secret (host room') = secret (host room) ∨
      ∃ newSecret now,
        op = SetPlayerSecret roomId (uid (host room)) newSecret now ∧
        secret (host room') = Some newSecret) ∧
     (∀ g, guest room = Some g ->
        ∃ g', guest room' = Some g' ∧ uid g' = uid g ∧
              (secret g' = secret g ∨
               ∃ newSecret now,
                 op = SetPlayerSecret roomId (uid g) newSecret now ∧
                 secret g' = Some newSecret))).
Proof.
  intros Hroom. split; [|split].
  - intros newSecret now. eexists. split.
    + apply setPlayerSecret_host; [exact Hroom | reflexivity].
    + reflexivity.
  - intros g newSecret now Hg Hne. eexists. eexists. split.
    + apply setPlayerSecret_guest; [exact Hroom | exact Hne |].
      rewrite Hg. reflexivity.
    + simpl. rewrite Hg. simpl. auto.
  - intros op room' Hadm Hroom'.
    pose proof (exec_lookup_change s op roomId room room' Hadm Hroom Hroom')
      as Hchange.
    split.
    + exact (room_change_host_secret _ _ _ _ Hchange).
    + intros g Hg. exact (room_change_guest_secret _ _ _ _ g Hchange Hg).
Qed.

Lemma secret_changes_witness :
  finishedStore !! "room1" = Some finishedRoom ∧
  ∃ room',
    setPlayerSecret "room1" "alice" "9012" 200 finishedStore
      = (Ok tt, <[ "room1" := room' ]> finishedStore) ∧
    secret (host room') = Some "9012".
Proof.
  assert (Hroom : finishedStore !! "room1" = Some finishedRoom)
    by (vm_compute; reflexivity).
  split; [exact Hroom|].
  exact (proj1 (secret_changes finishedStore "room1" finishedRoom Hroom)
           "9012" 200%Z).
Defined.

(** *** Guesses and status *)

(** In a room that is still [waiting], with no guest, the host's guess
    is accepted and stored. *)
Lemma submitGuess_accepted_while_waiting :
  status <$> createdStore !! "room1" = Some waiting ∧
  fst (submitGuess "room1" "alice" "1234" 200 createdStore) = Ok tt ∧
  (guesses ∘ host)
    <$> snd (submitGuess "room1" "alice" "1234" 200 createdStore) !! "room1"
    = Some ["1234"].
Proof. repeat split; vm_compute; reflexivity. Qed.

(** C3, as the code has it.  [submitGuess] does not read the status: on
    a record in any status, [waiting] and [finished] included, the guess
    of a caller who has the host's or the guest's uid is accepted and
    appended to that player's guesses, and the status stays as it
    was. *)
Theorem submitGuess_ignores_status (s : Store)
    (roomId playerUid guess : string) (now : Z) (room : Room) :
  s !! roomId = Some room ->
  uid (host room) = playerUid ∨ uid <$> guest room = Some playerUid ->
  ∃ room',
    submitGuess roomId playerUid guess now s
      = (Ok tt, <[roomId := room']> s) ∧
    status room' = status room ∧
    (uid (host room) = playerUid ->
       guesses (host room') = (guesses (host room) ++ [guess])%list) ∧
    (uid (host room) ≠ playerUid ->
       guesses <$> guest room' =
         (fun g => (guesses g ++ [guess])%list) <$> guest room).
Proof.
  intros Hroom Hwho.
  destruct (decide (uid (host room) = playerUid)) as [Hhost|Hhost].
  - eexists. split; [apply submitGuess_host; eassumption|].
    simpl. split; [reflexivity|]. split; [reflexivity | contradiction].
  - destruct Hwho as [Hwho|Hwho]; [contradiction|].
    destruct (guest room) as [g|] eqn:Hg; [|discriminate].
    injection Hwho as Hwho.
    eexists. split; [eapply submitGuess_guest; eassumption|].
    simpl. split; [reflexivity|]. split; [contradiction|].
    rewrite Hg. reflexivity.
Qed.

Lemma submitGuess_ignores_status_witness :
  finishedStore !! "room1" = Some finishedRoom ∧
  status finishedRoom = finished ∧
  ∃ room',
    submitGuess "room1" "bob" "1234" 200 finishedStore
      = (Ok tt, <[ "room1" := room' ]> finishedStore) ∧
    status room' = finished ∧
    guesses <$> guest room' = Some ["1234"].
Proof.
  assert (Hroom : finishedStore !! "room1" = Some finishedRoom)
    by (vm_compute; reflexivity).
  split; [exact Hroom|]. split; [reflexivity|].
  destruct (submitGuess_ignores_status finishedStore "room1" "bob" "1234"
              200 finishedRoom Hroom)
    as (room' & Heq & Hst & _ & Hguest); [right; reflexivity|].
  exists room'. split; [exact Heq|]. split; [exact Hst|].
  apply Hguest. discriminate.
Defined.


(** ** Further properties of the game logic *)

Lemma checkGuess_step_sum secret guess acc i :
  (hit (checkGuess_step secret guess acc i)
     + blow (checkGuess_step secret guess acc i)
   <= S (hit acc + blow acc))%nat.
Proof.
  unfold checkGuess_step.
  destruct (decide _); [simpl; lia|].
  destruct (includes _ _); simpl; lia.
Qed.

Lemma checkGuess_fold_sum secret guess (l : list nat) acc :
  (hit (fold_left (checkGuess_step secret guess) l acc)
     + blow (fold_left (checkGuess_step secret guess) l acc)
   <= hit acc + blow acc + length l)%nat.
Proof.
  revert acc. induction l as [|i l IH]; intros acc; simpl; [lia|].
  specialize (IH (checkGuess_step secret guess acc i)).
  pose proof (checkGuess_step_sum secret guess acc i). lia.
Qed.

(** The hit counter alone, for strings of any length. *)
Lemma checkGuess_fold_hit secret guess (l : list nat) acc :
  hit (fold_left (checkGuess_step secret guess) l acc) =
    (hit acc + length (filter (is_hit_at secret guess) l))%nat.
Proof.
  revert acc. induction l as [|i l IH]; intros acc; simpl; [lia|].
  rewrite IH, filter_cons. unfold checkGuess_step.
  destruct (decide (is_hit_at secret guess i)) as [Hh|Hh];
    unfold is_hit_at in Hh.
  - destruct (decide (charAt secret i = charAt guess i));
      [simpl; lia | contradiction].
  - destruct (decide (charAt secret i = charAt guess i)); [contradiction|].
    destruct (includes _ _); simpl; lia.
Qed.

Lemma checkGuess_hit secret guess :
  hit (checkGuess secret guess) = count_hits secret guess.
Proof. unfold checkGuess. rewrite checkGuess_fold_hit. reflexivity. Qed.

Lemma hit_inside_guess secret guess i :
  (i < String.length secret)%nat -> is_hit_at secret guess i ->
  (i < String.length guess)%nat.
Proof.
  unfold is_hit_at. rewrite !charAt_lookup. intros Hi Heq.
  rewrite <- (chars_length guess). apply lookup_lt_is_Some.
  rewrite <- Heq. apply lookup_lt_is_Some. rewrite chars_length. exact Hi.
Qed.

Lemma filter_none {A} (P : A -> Prop) `{∀ x, Decision (P x)} (l : list A) :
  Forall (fun x => ¬ P x) l -> filter P l = [].
Proof.
  induction 1 as [|x l Hx Hl IH]; [reflexivity|].
  rewrite filter_cons_False by exact Hx. exact IH.
Qed.

Lemma filter_all {A} (P : A -> Prop) `{∀ x, Decision (P x)} (l : list A) :
  length (filter P l) = length l ↔ Forall P l.
Proof.
  induction l as [|x l IH]; [split; [constructor | reflexivity]|].
  rewrite filter_cons, Forall_cons. pose proof (length_filter P l).
  destruct (decide (P x)) as [Hx|Hx]; simpl.
  - rewrite <- IH. split; [intros [= Heq]; auto | intros [_ ->]; reflexivity].
  - split; [lia | tauto].
Qed.

Lemma count_hits_le_guess secret guess :
  (count_hits secret guess <= String.length guess)%nat.
Proof.
  unfold count_hits, positions.
  destruct (decide (String.length secret <= String.length guess)%nat)
    as [Hle|Hgt].
  - pose proof (length_filter (is_hit_at secret guess)
                  (seq 0 (String.length secret))) as Hf.
    rewrite length_seq in Hf. lia.
  - replace (String.length secret)
      with (String.length guess
            + (String.length secret - String.length guess))%nat by lia.
    rewrite seq_app, filter_app, length_app.
    rewrite (filter_none _ (seq _ (_ - _))).
    + pose proof (length_filter (is_hit_at secret guess)
                    (seq 0 (String.length guess))) as Hf.
      rewrite length_seq in Hf. simpl. lia.
    + apply Forall_forall. intros i Hi Hhit.
      apply elem_of_seq in Hi.
      apply hit_inside_guess in Hhit; lia.
Qed.

(** X1. Whatever the two strings, [checkGuess] reports at most as many
    hits and blows together as the secret has characters, and at most
    as many hits as the guess has characters. *)
Theorem checkGuess_bounds (secret guess : string) :
  (hit (checkGuess secret guess) + blow (checkGuess secret guess)
     <= String.length secret)%nat ∧
  (hit (checkGuess secret guess) <= String.length guess)%nat.
Proof.
  split.
  - unfold checkGuess.
    pose proof (checkGuess_fold_sum secret guess
                  (seq 0 (String.length secret)) {| hit := 0; blow := 0 |})
      as Hsum.
    rewrite length_seq in Hsum. simpl in Hsum. exact Hsum.
  - rewrite checkGuess_hit. apply count_hits_le_guess.
Qed.

Lemma prefix_charAt (s1 s2 : string) :
  String.prefix s1 s2 = true ↔
  ∀ i, (i < String.length s1)%nat -> charAt s1 i = charAt s2 i.
Proof.
  unfold charAt. revert s2. induction s1 as [|a s1 IH]; intros s2; simpl.
  - split; [intros _ i Hi; lia | intros _; destruct s2; reflexivity].
  - destruct s2 as [|b s2].
    + split; [discriminate|]. intros H. specialize (H 0%nat ltac:(lia)).
      discriminate.
    + simpl. destruct (Ascii.ascii_dec a b) as [->|Hne].
      * split.
        -- intros Hp [|i] Hi; simpl; [reflexivity|].
           apply (proj1 (IH s2) Hp). lia.
        -- intros H. apply IH. intros i Hi. apply (H (S i)). lia.
      * split; [discriminate|]. intros H.
        specialize (H 0%nat ltac:(lia)). simpl in H. congruence.
Qed.

Lemma prefix_same_length (s1 s2 : string) :
  String.length s1 = String.length s2 ->
  String.prefix s1 s2 = true ↔ s2 = s1.
Proof.
  revert s2. induction s1 as [|a s1 IH]; intros [|b s2] Hlen;
    simpl in *; try discriminate.
  - split; reflexivity.
  - destruct (Ascii.ascii_dec a b) as [->|Hne].
    + split.
      * intros Hp. apply IH in Hp; [subst; reflexivity | lia].
      * intros [= ->]. apply IH; [lia | reflexivity].
    + split; [discriminate | intros [= -> ->]; contradiction].
Qed.

Lemma isGameClear_prefix secret guess config :
  Z.of_nat (String.length secret) = digits config ->
  isGameClear (checkGuess secret guess) config = true ↔
  String.prefix secret guess = true.
Proof.
  intros Hlen. unfold isGameClear. rewrite bool_decide_eq_true.
  rewrite checkGuess_hit, <- Hlen, prefix_charAt.
  unfold count_hits, positions.
  pose proof (filter_all (is_hit_at secret guess)
                (seq 0 (String.length secret))) as Hall.
  rewrite length_seq, Forall_forall in Hall.
  split.
  - intros Heq. apply Nat2Z.inj in Heq.
    pose proof (proj1 Hall Heq) as Hhits.
    intros i Hi. apply Hhits. apply elem_of_seq. lia.
  - intros Hpre. f_equal. apply (proj2 Hall). intros i Hi.
    apply Hpre. apply elem_of_seq in Hi. lia.
Qed.

(** X2. For a secret of [digits] characters, [isGameClear] accepts the
    result of [checkGuess] exactly when the guess starts with the
    secret; for a guess of the same length, exactly when the guess is
    the secret. *)
Theorem isGameClear_checkGuess (secret guess : string) (config : GameConfig) :
  Z.of_nat (String.length secret) = digits config ->
  (isGameClear (checkGuess secret guess) config = true ↔
     String.prefix secret guess = true) ∧
  (String.length guess = String.length secret ->
     isGameClear (checkGuess secret guess) config = true ↔ guess = secret).
Proof.
  intros Hlen. split; [apply isGameClear_prefix; exact Hlen|].
  intros Hsame. rewrite (isGameClear_prefix _ _ _ Hlen).
  apply prefix_same_length. symmetry. exact Hsame.
Qed.

Lemma isGameClear_checkGuess_witness :
  Z.of_nat (String.length "1234") = digits defaultConfig ∧
  isGameClear (checkGuess "1234" "12345") defaultConfig = true ∧
  isGameClear (checkGuess "1234" "1243") defaultConfig ≠ true.
Proof.
  assert (Hlen : Z.of_nat (String.length "1234") = digits defaultConfig)
    by reflexivity.
  split; [exact Hlen|]. split.
  - apply (proj1 (isGameClear_checkGuess "1234" "12345" defaultConfig Hlen)).
    reflexivity.
  - intros Hclear.
    apply (proj2 (isGameClear_checkGuess "1234" "1243" defaultConfig Hlen)
             eq_refl) in Hclear.
    discriminate.
Defined.


(** ** More on validateGuess *)

Lemma remove_dups_length_NoDup {A} `{EqDecision A} (l : list A) :
  length (remove_dups l) = length l ↔ NoDup l.
Proof.
  induction l as [|x l IH]; [split; [constructor | reflexivity]|].
  rewrite NoDup_cons. simpl. pose proof (remove_dups_length_le l).
  destruct (decide_rel elem_of x l) as [Hin|Hout]; simpl.
  - split; [lia | tauto].
  - rewrite <- IH. split; [intros [= Heq]; auto | intros [_ ->]; reflexivity].
Qed.

Lemma uniqueDigitsSize_NoDup (guess : string) :
  uniqueDigitsSize guess = String.length guess ↔ NoDup (chars guess).
Proof.
  unfold uniqueDigitsSize. rewrite <- chars_length.
  apply remove_dups_length_NoDup.
Qed.

Lemma validateGuess_None (guess : string) (config : GameConfig) :
  validateGuess guess config = None ↔
  Z.of_nat (String.length guess) = digits config ∧
  guess ≠ EmptyString ∧
  digitString guess ∧
  (allowDuplicate config = false -> NoDup (chars guess)).
Proof.
  unfold validateGuess.
  destruct (Z.eqb_spec (Z.of_nat (String.length guess)) (digits config))
    as [Hlen|Hlen]; simpl; [|split; [discriminate | tauto]].
  destruct (testAllDigits guess) eqn:Htest; simpl.
  - apply testAllDigits_spec in Htest as [Hne Hdig].
    destruct (allowDuplicate config); simpl.
    + split; [intros _ | reflexivity]. repeat split; auto. discriminate.
    + destruct (Z.eqb_spec (Z.of_nat (uniqueDigitsSize guess)) (digits config))
        as [Huniq|Huniq]; simpl.
      * split; [intros _ | reflexivity]. repeat split; auto.
        intros _. apply uniqueDigitsSize_NoDup. lia.
      * split; [discriminate|]. intros (_ & _ & _ & Hnd).
        specialize (Hnd eq_refl). apply uniqueDigitsSize_NoDup in Hnd. lia.
  - split; [discriminate|]. intros (_ & Hne & Hdig & _).
    assert (testAllDigits guess = true) by (apply testAllDigits_spec; auto).
    congruence.
Qed.

(** X3. [validateGuess] returns no error exactly for the inputs that
    have [digits] characters, at least one, all of them digits, and, when
    duplicates are not allowed, no character twice. *)
Theorem validateGuess_valid_iff (guess : string) (config : GameConfig) :
  validateGuess guess config = None ↔
  Z.of_nat (String.length guess) = digits config ∧
  guess ≠ EmptyString ∧
  digitString guess ∧
  (allowDuplicate config = false -> NoDup (chars guess)).
Proof. apply validateGuess_None. Qed.

Lemma validateGuess_valid_iff_witness :
  validateGuess "0123" defaultConfig = None ∧
  ¬ NoDup (chars "0120") ∧
  validateGuess "0120" defaultConfig ≠ None.
Proof.
  split; [|split].
  - apply (proj2 (validateGuess_valid_iff "0123" defaultConfig)).
    split; [reflexivity|]. split; [discriminate|].
    split; [repeat constructor|].
    intros _. apply (proj1 (uniqueDigitsSize_NoDup "0123")). reflexivity.
  - intros Hnd. apply uniqueDigitsSize_NoDup in Hnd. discriminate.
  - intros Hvalid.
    apply (proj1 (validateGuess_valid_iff "0120" defaultConfig)) in Hvalid.
    destruct Hvalid as (_ & _ & _ & Hnd). specialize (Hnd eq_refl).
    apply uniqueDigitsSize_NoDup in Hnd. discriminate.
Defined.

(** X4. With a configuration of zero digits or fewer, [validateGuess]
    rejects every input: the empty string, the only one of length zero,
    fails the digits test. *)
Theorem validateGuess_no_digits (guess : string) (config : GameConfig) :
  (digits config <= 0)%Z ->
  validateGuess guess config =
    if decide (guess = EmptyString ∧ digits config = 0%Z)
    then Some NonDigitCharacter else Some WrongLength.
Proof.
  intros Hle. unfold validateGuess.
  destruct (decide _) as [[-> H0]|Hno].
  - rewrite H0. reflexivity.
  - destruct (Z.eqb_spec (Z.of_nat (String.length guess)) (digits config))
      as [Hlen|Hlen]; simpl; [|reflexivity].
    exfalso. apply Hno. destruct guess; simpl in Hlen; [split; [reflexivity|lia]|lia].
Qed.

Lemma validateGuess_no_digits_witness :
  (digits {| digits := 0; allowDuplicate := true |} <= 0)%Z ∧
  validateGuess "" {| digits := 0; allowDuplicate := true |}
    = Some NonDigitCharacter ∧
  validateGuess "7" {| digits := 0; allowDuplicate := true |}
    = Some WrongLength.
Proof.
  assert (H0 : (digits {| digits := 0; allowDuplicate := true |} <= 0)%Z)
    by (simpl; lia).
  split; [exact H0|]. split.
  - exact (validateGuess_no_digits "" _ H0).
  - exact (validateGuess_no_digits "7" _ H0).
Defined.

(** ** More on generateRandomSecret *)

(** The digits chosen by a run of the generator that passes the guard. *)
Lemma generateRandomSecret_chosen (rand : nat -> Z) (config : GameConfig) :
  (∀ i, 0 <= rand i < randomRange)%Z ->
  (0 <= digits config)%Z ->
  allowDuplicate config = true ∨ (digits config <= 10)%Z ->
  ∃ chosen st,
    generateRandomSecret rand config = Some (Ok (join (Some <$> chosen))) ∧
    generate_inv (allowDuplicate config) chosen st ∧
    Z.of_nat (length chosen) = digits config.
Proof.
  intros Hrand Hpos Hok. unfold generateRandomSecret.
  assert (negb (allowDuplicate config) && (10 <? digits config)%Z = false)
    as ->.
  { destruct Hok as [->|Hok]; [reflexivity|].
    apply andb_false_iff. right. apply Z.ltb_ge. exact Hok. }
  destruct (generate_loop_total rand Hrand config) with
    (fuel := Z.to_nat (digits config)) (chosen := @nil Z) (st := initialGen)
    as (chosen & st & Hloop & Hinv & Hlen).
  { intros Hdup. destruct Hok as [Hok|Hok]; [congruence | exact Hok]. }
  { apply generate_inv_initial. }
  { simpl. lia. }
  { simpl. lia. }
  rewrite Hloop. exists chosen, st.
  destruct Hinv as (Hres & Hrest). rewrite Hres.
  split; [reflexivity|]. split; [split; assumption | exact Hlen].
Qed.

Lemma generate_inv_NoDup chosen st :
  generate_inv false chosen st -> NoDup chosen.
Proof.
  intros (_ & _ & Hperm).
  assert (NoDup (chosen ++ availableDigits st)%list) as Hnd.
  { rewrite Hperm. simpl. repeat constructor;
      repeat (rewrite elem_of_cons); rewrite ?elem_of_nil; lia. }
  apply NoDup_app in Hnd as [Hnd _]. exact Hnd.
Qed.

Lemma chosen_string_valid chosen config :
  Forall oneDigit chosen ->
  Z.of_nat (length chosen) = digits config ->
  (1 <= digits config)%Z ->
  (allowDuplicate config = false -> NoDup chosen) ->
  validateGuess (join (Some <$> chosen)) config = None.
Proof.
  intros Hdig Hlen Hpos Hnd. apply validateGuess_None.
  pose proof (chars_join chosen Hdig) as Hchars.
  assert (String.length (join (Some <$> chosen)) = length chosen) as Hl.
  { rewrite <- chars_length, Hchars, length_fmap. reflexivity. }
  split; [rewrite Hl; exact Hlen|]. split.
  { intros Hempty. rewrite Hempty in Hl. simpl in Hl. lia. }
  split.
  { unfold digitString. rewrite Hchars. apply Forall_fmap.
    eapply Forall_impl; [exact Hdig|]. intros d Hd.
    apply pretty_oneDigit. exact Hd. }
  intros Hdup. rewrite Hchars. apply NoDup_fmap_2_strong; [|auto].
  intros d1 d2 H1 H2. rewrite Forall_forall in Hdig.
  apply digitChar_inj; auto.
Qed.

(** X5. A secret that [generateRandomSecret] returns for a configuration
    of at least one digit is an input that [validateGuess] accepts for
    the same configuration. *)
Theorem generated_secret_is_valid (rand : nat -> Z) (config : GameConfig) :
  (∀ i, 0 <= rand i < randomRange)%Z ->
  (1 <= digits config)%Z ->
  allowDuplicate config = true ∨ (digits config <= 10)%Z ->
  ∃ s, generateRandomSecret rand config = Some (Ok s) ∧
       validateGuess s config = None.
Proof.
  intros Hrand Hpos Hok.
  destruct (generateRandomSecret_chosen rand config Hrand ltac:(lia) Hok)
    as (chosen & st & Hgen & Hinv & Hlen).
  exists (join (Some <$> chosen)). split; [exact Hgen|].
  apply chosen_string_valid; [apply Hinv | exact Hlen | exact Hpos |].
  intros Hdup. rewrite Hdup in Hinv. exact (generate_inv_NoDup _ _ Hinv).
Qed.

Lemma generated_secret_is_valid_witness :
  (∀ i, 0 <= sampleRand i < randomRange)%Z ∧
  ∃ s, generateRandomSecret sampleRand defaultConfig = Some (Ok s) ∧
       validateGuess s defaultConfig = None.
Proof.
  assert (Hrand : ∀ i, (0 <= sampleRand i < randomRange)%Z).
  { intros i. unfold sampleRand. apply Z.mod_pos_bound. reflexivity. }
  split; [exact Hrand|].
  apply (generated_secret_is_valid sampleRand defaultConfig Hrand).
  - simpl. lia.
  - right. simpl. lia.
Defined.

(** X6. For a configuration of zero digits or fewer the loop is never
    entered: [generateRandomSecret] returns the empty string, whatever
    [Math.random] yields and also when duplicates are not allowed. *)
Theorem generateRandomSecret_no_digits (rand : nat -> Z) (config : GameConfig) :
  (digits config <= 0)%Z ->
  generateRandomSecret rand config = Some (Ok EmptyString).
Proof.
  intros Hle. unfold generateRandomSecret.
  assert ((10 <? digits config)%Z = false) as -> by (apply Z.ltb_ge; lia).
  rewrite andb_false_r.
  destruct (Z.to_nat (digits config)); simpl;
    rewrite bool_decide_eq_false_2 by lia; reflexivity.
Qed.

Lemma generateRandomSecret_no_digits_witness :
  (digits {| digits := -3; allowDuplicate := false |} <= 0)%Z ∧
  generateRandomSecret sampleRand {| digits := -3; allowDuplicate := false |}
    = Some (Ok EmptyString).
Proof.
  assert (H : (digits {| digits := -3; allowDuplicate := false |} <= 0)%Z)
    by (simpl; lia).
  split; [exact H|]. exact (generateRandomSecret_no_digits sampleRand _ H).
Defined.

(** X7. Without duplicates and with ten digits, the secret is a
    rearrangement of the ten decimal digits: every digit is used exactly
    once. *)
Theorem generateRandomSecret_ten (rand : nat -> Z) :
  (∀ i, 0 <= rand i < randomRange)%Z ->
  ∃ s, generateRandomSecret rand {| digits := 10; allowDuplicate := false |}
         = Some (Ok s) ∧
       chars s ≡ₚ chars "0123456789".
Proof.
  intros Hrand.
  destruct (generateRandomSecret_chosen rand
              {| digits := 10; allowDuplicate := false |} Hrand)
    as (chosen & st & Hgen & (Hres & Hdig & Hperm) & Hlen);
    [simpl; lia | right; simpl; lia |].
  exists (join (Some <$> chosen)). split; [exact Hgen|].
  rewrite (chars_join chosen Hdig). simpl in Hperm, Hlen.
  assert (availableDigits st = []) as Hnil.
  { apply Permutation_length in Hperm. rewrite length_app in Hperm.
    simpl in Hperm. apply nil_length_inv. lia. }
  rewrite Hnil, app_nil_r in Hperm. rewrite Hperm. reflexivity.
Qed.

Lemma generateRandomSecret_ten_witness :
  (∀ i, 0 <= sampleRand i < randomRange)%Z ∧
  ∃ s, generateRandomSecret sampleRand
         {| digits := 10; allowDuplicate := false |} = Some (Ok s) ∧
       chars s ≡ₚ chars "0123456789".
Proof.
  assert (Hrand : ∀ i, (0 <= sampleRand i < randomRange)%Z).
  { intros i. unfold sampleRand. apply Z.mod_pos_bound. reflexivity. }
  split; [exact Hrand|]. exact (generateRandomSecret_ten sampleRand Hrand).
Defined.






(** ** Blows without duplicates *)

Lemma NoDup_omap_inj {A B} (f : A -> option B) (l : list A) :
  NoDup l ->
  (∀ x y b, x ∈ l -> y ∈ l -> f x = Some b -> f y = Some b -> x = y) ->
  NoDup (omap f l).
Proof.
  induction 1 as [|x l Hx Hl IH]; intros Hinj; simpl; [constructor|].
  assert (NoDup (omap f l)) as Hrest.
  { apply IH. intros y z b Hy Hz. apply Hinj; right; assumption. }
  destruct (f x) as [b|] eqn:Hfx; [|exact Hrest].
  constructor; [|exact Hrest].
  intros Hin. apply list_elem_of_omap in Hin as (y & Hy & Hfy).
  assert (x = y) by (eapply Hinj; [left | right; exact Hy | exact Hfx | exact Hfy]).
  subst y. contradiction.
Qed.

Lemma occurrences_NoDup (c : ascii) (l : list ascii) :
  NoDup l -> occurrences c l = if decide (c ∈ l) then 1%nat else 0%nat.
Proof.
  unfold occurrences. induction 1 as [|x l Hx Hl IH]; [reflexivity|].
  rewrite filter_cons.
  destruct (decide (x = c)) as [->|Hne]; simpl; rewrite IH;
    destruct (decide (c ∈ l)) as [Hin|Hout];
    destruct (decide (c ∈ _ :: l)) as [Hin'|Hout']; try reflexivity;
    exfalso;
    first [ contradiction
          | apply Hout'; left
          | apply Hout'; right; assumption
          | apply elem_of_cons in Hin' as [->|?]; contradiction ].
Qed.

Lemma chars_NoDup_charAt (s : string) (i j : nat) (c : ascii) :
  NoDup (chars s) -> charAt s i = Some c -> charAt s j = Some c -> i = j.
Proof.
  rewrite !charAt_lookup. intros Hnd Hi Hj.
  eapply NoDup_lookup; eassumption.
Qed.

Lemma remaining_elem (secret guess s : string) (c : ascii) :
  c ∈ remaining secret guess s ↔
  ∃ i, (i < String.length secret)%nat ∧ ¬ is_hit_at secret guess i ∧
       charAt s i = Some c.
Proof.
  unfold remaining, positions. rewrite list_elem_of_omap. split.
  - intros (i & Hi & Hf). apply elem_of_seq in Hi.
    destruct (decide (is_hit_at secret guess i)); [discriminate|].
    exists i. split; [lia | auto].
  - intros (i & Hi & Hh & Hc). exists i. split; [apply elem_of_seq; lia|].
    rewrite decide_False by exact Hh. exact Hc.
Qed.

Lemma remaining_NoDup (secret guess s : string) :
  NoDup (chars s) -> NoDup (remaining secret guess s).
Proof.
  intros Hnd. apply NoDup_omap_inj; [apply NoDup_seq|].
  intros i j c _ _ Hi Hj.
  destruct (decide (is_hit_at secret guess i)); [discriminate|].
  destruct (decide (is_hit_at secret guess j)); [discriminate|].
  eapply chars_NoDup_charAt; eassumption.
Qed.

Lemma isDigit_decimal (c : ascii) : isDigit c = true -> c ∈ decimalDigits.
Proof.
  destruct c as [[] [] [] [] [] [] [] []]; try discriminate; intros _;
    apply (bool_decide_unpack _); vm_compute; exact I.
Qed.

Lemma decimalDigits_NoDup : NoDup decimalDigits.
Proof. apply (bool_decide_unpack _). vm_compute. exact I. Qed.

(** Over lists without repetition, the strict rule counts the digits
    left over on both sides. *)
Lemma strictBlow_common (secret guess : string) :
  NoDup (chars secret) -> NoDup (chars guess) ->
  strictBlow secret guess =
    length (filter (fun c => c ∈ remaining secret guess secret ∧
                             c ∈ remaining secret guess guess)
                   decimalDigits).
Proof.
  intros Hs Hg. unfold strictBlow.
  induction decimalDigits as [|c l IH]; [reflexivity|].
  simpl foldr. rewrite IH, filter_cons.
  rewrite (occurrences_NoDup _ _ (remaining_NoDup secret guess secret Hs)).
  rewrite (occurrences_NoDup _ _ (remaining_NoDup secret guess guess Hg)).
  destruct (decide (c ∈ remaining secret guess secret));
    destruct (decide (c ∈ remaining secret guess guess));
    destruct (decide (_ ∧ _)) as [[? ?]|Hno]; simpl; try reflexivity;
    try contradiction; exfalso; apply Hno; auto.
Qed.

(** A position that is not a hit is a blow exactly when its guessed
    character is left over in the secret. *)
Lemma blow_iff_remaining (secret guess : string) (i : nat) (c : ascii) :
  NoDup (chars guess) ->
  ¬ is_hit_at secret guess i ->
  charAt guess i = Some c ->
  is_blow_at secret guess i ↔ c ∈ remaining secret guess secret.
Proof.
  intros Hg Hnot Hc. unfold is_blow_at. rewrite remaining_elem. split.
  - intros (_ & c' & Hc' & Hin). assert (c' = c) by congruence. subst c'.
    apply list_elem_of_lookup in Hin as [j Hj].
    rewrite <- charAt_lookup in Hj.
    exists j. split; [|split; [|exact Hj]].
    + rewrite <- chars_length. apply lookup_lt_is_Some.
      rewrite <- charAt_lookup. eauto.
    + intros Hhit. unfold is_hit_at in Hhit. rewrite Hj in Hhit.
      assert (j = i) by (eapply chars_NoDup_charAt; eauto).
      subst j. apply Hnot. unfold is_hit_at. congruence.
  - intros (j & _ & _ & Hj). split; [exact Hnot|].
    exists c. split; [exact Hc|].
    rewrite charAt_lookup in Hj. eapply list_elem_of_lookup_2. exact Hj.
Qed.

Lemma count_blows_remaining (secret guess : string) (l : list nat) :
  NoDup (chars guess) ->
  length (filter (fun c => c ∈ remaining secret guess secret)
            (omap (fun i => if decide (is_hit_at secret guess i) then None
                            else charAt guess i) l)) =
  length (filter (is_blow_at secret guess) l).
Proof.
  intros Hg. induction l as [|i l IH]; [reflexivity|].
  simpl omap. rewrite (filter_cons (is_blow_at secret guess)).
  destruct (decide (is_hit_at secret guess i)) as [Hhit|Hnot].
  - rewrite decide_False; [exact IH|]. intros [Hne _]. exact (Hne Hhit).
  - destruct (charAt guess i) as [c|] eqn:Hc.
    + rewrite filter_cons.
      pose proof (blow_iff_remaining secret guess i c Hg Hnot Hc) as Hiff.
      destruct (decide (c ∈ remaining secret guess secret)) as [Hin|Hout].
      * rewrite decide_True by (apply Hiff; exact Hin). simpl. f_equal. exact IH.
      * rewrite decide_False by (intros Hb; apply Hout, Hiff; exact Hb).
        exact IH.
    + rewrite decide_False; [exact IH|].
      intros (_ & c & Hsome & _). congruence.
Qed.

(** X9. For strings of equal length in which no character occurs
    twice, the guess being a digit string, the containment test of
    [checkGuess] is exact: its blow count is the one of the strict
    rule. *)
Theorem blow_exact_without_duplicates (secret guess : string) :
  String.length secret = String.length guess ->
  NoDup (chars secret) -> NoDup (chars guess) -> digitString guess ->
  blow (checkGuess secret guess) = strictBlow secret guess.
Proof.
  intros Hlen Hs Hg Hdig.
  unfold checkGuess. rewrite checkGuess_fold.
  2:{ apply Forall_forall. intros i Hi. apply elem_of_seq in Hi. lia. }
  simpl. rewrite (strictBlow_common secret guess Hs Hg).
  rewrite <- (count_blows_remaining secret guess _ Hg).
  fold (positions secret). fold (remaining secret guess guess).
  apply Permutation_length. apply NoDup_Permutation.
  - apply NoDup_filter. apply remaining_NoDup. exact Hg.
  - apply NoDup_filter. exact decimalDigits_NoDup.
  - intros c. rewrite !list_elem_of_filter. split.
    + intros [Hrs Hrg]. split; [split; assumption|].
      apply isDigit_decimal.
      apply remaining_elem in Hrg as (i & _ & _ & Hc).
      unfold digitString in Hdig. rewrite Forall_forall in Hdig.
      apply Hdig. rewrite charAt_lookup in Hc.
      eapply list_elem_of_lookup_2. exact Hc.
    + intros [[Hrs Hrg] _]. split; assumption.
Qed.

Lemma blow_exact_without_duplicates_witness :
  String.length "0123" = String.length "3105" ∧
  blow (checkGuess "0123" "3105") = strictBlow "0123" "3105".
Proof.
  split; [reflexivity|].
  apply (blow_exact_without_duplicates "0123" "3105").
  - reflexivity.
  - apply (proj1 (uniqueDigitsSize_NoDup "0123")). reflexivity.
  - apply (proj1 (uniqueDigitsSize_NoDup "3105")). reflexivity.
  - repeat constructor.
Defined.


(** ** Further properties of the room service *)

(** A call leaves every room but the one it names as it was. *)
Lemma exec_frame (s : Store) (op : Op) (other : string) :
  other ≠ target op -> exec op s !! other = s !! other.
Proof.
  intros Hne.
  destruct op as [r data now | r guestUid now | r playerUid newSecret now
                 | r playerUid ready now | r now | r playerUid guess now
                 | r now | r | r playerUid now];
    simpl in Hne; unfold_service;
    try (destruct (s !! r) as [room|] eqn:Hroom; simpl);
    split_tests; rewrite ?Hroom; simpl;
    rewrite ?lookup_insert_ne, ?lookup_delete_ne by congruence;
    reflexivity.
Qed.

(** A call that throws has written nothing. *)
Lemma outcome_Err_unchanged (s : Store) (op : Op) (e : Error) :
  outcome op s = Err e -> exec op s = s.
Proof.
  destruct op as [r data now | r guestUid now | r playerUid newSecret now
                 | r playerUid ready now | r now | r playerUid guess now
                 | r now | r | r playerUid now];
    unfold outcome; unfold_service;
    try (destruct (s !! r) as [room|] eqn:Hroom; simpl);
    split_tests; rewrite ?Hroom; simpl;
    first [ reflexivity | discriminate ].
Qed.

(** No call but [createRoom] brings a room into being. *)
Lemma exec_absent (s : Store) (op : Op) (roomId : string) :
  s !! roomId = None ->
  (∀ data now, op ≠ CreateRoom roomId data now) ->
  exec op s !! roomId = None.
Proof.
  intros Hnone Hcreate.
  destruct (decide (roomId = target op)) as [Heq|Hne];
    [|rewrite exec_frame by exact Hne; exact Hnone].
  destruct op as [r data now | r guestUid now | r playerUid newSecret now
                 | r playerUid ready now | r now | r playerUid guess now
                 | r now | r | r playerUid now];
    simpl in Heq; subst r;
    try (exfalso; eapply Hcreate; reflexivity);
    unfold_service; rewrite ?Hnone; simpl;
    rewrite ?lookup_delete_eq; exact Hnone || reflexivity.
Qed.

(** X10. [createRoom] returns the id it was given by the store, and a
    [getRoom] that follows returns the new record: status [waiting], the
    given configuration, a host with the given uid who is not ready and
    has no secret and no guesses, no guest, the host to move, and both
    timestamps equal to the creation time.  Every other room is left as
    it was. *)
Theorem createRoom_getRoom (s : Store) (roomId : string)
    (data : CreateRoomData) (now : Z) :
  fst (createRoom roomId data now s) = Ok roomId ∧
  ∃ room,
    getRoom roomId (snd (createRoom roomId data now s))
      = (Ok (Some room), snd (createRoom roomId data now s)) ∧
    id room = roomId ∧ status room = waiting ∧
    config room = create_config data ∧
    uid (host room) = hostUid data ∧ role (host room) = host_role ∧
    isReady (host room) = false ∧ secret (host room) = None ∧
    guesses (host room) = [] ∧ lastActiveAt (host room) = now ∧
    guest room = None ∧ currentTurn room = host_role ∧
    createdAt room = now ∧ updatedAt room = now ∧
    ∀ other, other ≠ roomId ->
      snd (createRoom roomId data now s) !! other = s !! other.
Proof.
  split; [reflexivity|].
  eexists. split.
  - unfold getRoom, createRoom, bind, getDoc, setDoc, ret. simpl.
    rewrite lookup_insert_eq. reflexivity.
  - simpl. repeat split.
    intros other Hne. apply lookup_insert_ne. congruence.
Qed.

Lemma createRoom_getRoom_witness :
  "room1" ≠ "room9" ∧
  fst (createRoom "room9" sampleData 300 joinedStore) = Ok "room9" ∧
  snd (createRoom "room9" sampleData 300 joinedStore) !! "room1"
    = joinedStore !! "room1".
Proof.
  assert (Hne : "room1" ≠ "room9") by discriminate.
  split; [exact Hne|].
  destruct (createRoom_getRoom joinedStore "room9" sampleData 300)
    as (Hret & room & Hrest).
  split; [exact Hret|].
  repeat (destruct Hrest as [_ Hrest]).
  apply Hrest. exact Hne.
Defined.

(** X11. A call that throws leaves the store exactly as it was, for each
    of the nine operations. *)
Theorem failed_call_writes_nothing (s : Store) (op : Op) (e : Error) :
  outcome op s = Err e -> exec op s = s.
Proof. apply outcome_Err_unchanged. Qed.

Lemma failed_call_writes_nothing_witness :
  outcome (StartGame "room1" 200) joinedStore = Err NotReady ∧
  exec (StartGame "room1" 200) joinedStore = joinedStore.
Proof.
  assert (H : outcome (StartGame "room1" 200) joinedStore = Err NotReady)
    by (vm_compute; reflexivity).
  split; [exact H|].
  exact (failed_call_writes_nothing joinedStore _ _ H).
Defined.

(** X12. A call reads and writes only the room whose id it is given:
    every other room of the store is the same record afterwards. *)
Theorem other_rooms_untouched (s : Store) (op : Op) (other : string) :
  other ≠ target op -> exec op s !! other = s !! other.
Proof. apply exec_frame. Qed.

Lemma other_rooms_untouched_witness :
  "room1" ≠ target (DeleteRoom "room2") ∧
  exec (DeleteRoom "room2") joinedStore !! "room1" = joinedStore !! "room1".
Proof.
  assert (H : "room1" ≠ target (DeleteRoom "room2")) by discriminate.
  split; [exact H|].
  exact (other_rooms_untouched joinedStore _ _ H).
Defined.

(** X13. On an id that has no record, [joinRoom], [updatePlayerReady],
    [setPlayerSecret], [startGame] and [submitGuess] throw [NotFound],
    [finishGame] is rejected by the store, [updatePlayerActive] and
    [deleteRoom] return normally and [getRoom] returns [null]; none of
    them creates a record. *)
Theorem calls_on_missing_room (s : Store) (roomId : string) :
  s !! roomId = None ->
  (∀ guestUid now, joinRoom roomId guestUid now s = (Err NotFound, s)) ∧
  (∀ playerUid ready now,
     updatePlayerReady roomId playerUid ready now s = (Err NotFound, s)) ∧
  (∀ playerUid newSecret now,
     setPlayerSecret roomId playerUid newSecret now s = (Err NotFound, s)) ∧
  (∀ now, startGame roomId now s = (Err NotFound, s)) ∧
  (∀ playerUid guess now,
     submitGuess roomId playerUid guess now s = (Err NotFound, s)) ∧
  (∀ now, finishGame roomId now s = (Err StoreError, s)) ∧
  (∀ playerUid now, updatePlayerActive roomId playerUid now s = (Ok tt, s)) ∧
  (fst (deleteRoom roomId s) = Ok tt ∧ snd (deleteRoom roomId s) = s) ∧
  getRoom roomId s = (Ok None, s).
Proof.
  intros Hnone.
  repeat split; intros;
    unfold joinRoom, updatePlayerReady, setPlayerSecret, startGame,
      submitGuess, finishGame, updatePlayerActive, deleteRoom, getRoom,
      bind, getDoc, updateDoc, deleteDoc, ret, throw;
    rewrite ?Hnone; try reflexivity.
  simpl. apply delete_id. exact Hnone.
Qed.

Lemma calls_on_missing_room_witness :
  createdStore !! "room2" = None ∧
  startGame "room2" 200 createdStore = (Err NotFound, createdStore) ∧
  finishGame "room2" 200 createdStore = (Err StoreError, createdStore).
Proof.
  assert (H : createdStore !! "room2" = None) by (vm_compute; reflexivity).
  split; [exact H|].
  pose proof (calls_on_missing_room createdStore "room2" H)
    as (_ & _ & _ & Hstart & _ & Hfinish & _).
  split; [apply Hstart | apply Hfinish].
Defined.

(** X14. A room that is absent stays absent under every call but a
    [createRoom] with its id; in particular, after [deleteRoom], no call
    on the old id writes anything under it. *)
Theorem absent_room_stays_absent (s : Store) (roomId : string) :
  (∀ op, s !! roomId = None ->
         (∀ data now, op ≠ CreateRoom roomId data now) ->
         exec op s !! roomId = None) ∧
  (∀ ops, Forall (fun op => ∀ data now, op ≠ CreateRoom roomId data now) ops ->
          run ops (exec (DeleteRoom roomId) s) !! roomId = None).
Proof.
  split; [intros op; apply exec_absent|].
  intros ops Hops.
  assert (Hgen : ∀ s0 : Store, s0 !! roomId = None ->
                               run ops s0 !! roomId = None).
  { induction Hops as [|op ops Hop Hops IH]; intros s0 Hs0; [exact Hs0|].
    simpl. apply IH. apply exec_absent; assumption. }
  apply Hgen. apply exec_delete.
Qed.

Lemma absent_room_stays_absent_witness :
  run [JoinRoom "room1" "bob" 300; FinishGame "room1" 310;
       UpdatePlayerActive "room1" "alice" 320]
      (exec (DeleteRoom "room1") finishedStore) !! "room1" = None.
Proof.
  apply (proj2 (absent_room_stays_absent finishedStore "room1")).
  repeat constructor; discriminate.
Defined.


(** *** startGame *)

(** X15. [startGame] on an existing room: it throws [NotReady] when the
    host is not ready, when there is no guest or when the guest is not
    ready; with both ready, it throws [SecretsMissing] when a secret is
    absent or is the empty string; otherwise it returns, and the record
    differs from the old one in [status], now [playing], and in
    [updatedAt] only.  The current status and the turn are not read. *)
Theorem startGame_spec (s : Store) (roomId : string) (now : Z) (room : Room) :
  s !! roomId = Some room ->
  (isReady (host room) = false ∨ guest room = None ∨
   (∃ g, guest room = Some g ∧ isReady g = false) ->
     startGame roomId now s = (Err NotReady, s)) ∧
  (∀ g, isReady (host room) = true ->
        guest room = Some g -> isReady g = true ->
        secret (host room) = None ∨ secret (host room) = Some "" ∨
        secret g = None ∨ secret g = Some "" ->
     startGame roomId now s = (Err SecretsMissing, s)) ∧
  (∀ g hostSecret guestSecret,
        isReady (host room) = true ->
        guest room = Some g -> isReady g = true ->
        secret (host room) = Some hostSecret -> hostSecret ≠ "" ->
        secret g = Some guestSecret -> guestSecret ≠ "" ->
     startGame roomId now s =
       (Ok tt, <[roomId := set_updatedAt now (set_status playing room)]> s)).
Proof.
  intros Hroom. unfold startGame, bind, getDoc, throw. rewrite Hroom.
  unfold guestNotReady, guestSecretMissing, secretMissing.
  split; [|split].
  - intros [Hh | [Hg | (g & Hg & Hr)]].
    + rewrite Hh. reflexivity.
    + rewrite Hg, orb_true_r. reflexivity.
    + rewrite Hg, Hr, orb_true_r. reflexivity.
  - intros g Hh Hg Hr Hmiss. rewrite Hh, Hg, Hr. simpl.
    destruct Hmiss as [Hm | [Hm | [Hm | Hm]]]; rewrite Hm; simpl;
      rewrite ?orb_true_r; reflexivity.
  - intros g hs gs Hh Hg Hr Hhs Hhne Hgs Hgne.
    rewrite Hh, Hg, Hr, Hhs, Hgs. simpl.
    rewrite !bool_decide_eq_false_2 by assumption. simpl.
    rewrite (updateDoc_found _ _ _ _ Hroom). reflexivity.
Qed.

Lemma startGame_spec_witness :
  joinedStore !! "room1" = Some joinedRoom ∧
  startGame "room1" 200 joinedStore = (Err NotReady, joinedStore) ∧
  finishedStore !! "room1" = Some finishedRoom ∧
  startGame "room1" 200 finishedStore =
    (Ok tt, <["room1" := set_updatedAt 200 (set_status playing finishedRoom)]>
              finishedStore).
Proof.
  assert (Hj : joinedStore !! "room1" = Some joinedRoom)
    by (vm_compute; reflexivity).
  assert (Hf : finishedStore !! "room1" = Some finishedRoom)
    by (vm_compute; reflexivity).
  split; [exact Hj|]. split.
  { apply (proj1 (startGame_spec joinedStore "room1" 200 joinedRoom Hj)).
    left. reflexivity. }
  split; [exact Hf|].
  eapply (proj2 (proj2 (startGame_spec finishedStore "room1" 200
                          finishedRoom Hf)));
    first [ reflexivity | discriminate ].
Defined.

(** ** What stays the same over a room's life *)

Lemma room_change_fixed roomId room op room' :
  room_change roomId room op room' ->
  id room' = id room ∧ config room' = config room ∧
  createdAt room' = createdAt room ∧
  uid (host room') = uid (host room) ∧
  role (host room') = role (host room).
Proof. destruct 1; simpl; auto. Qed.

Lemma room_change_guesses roomId room op room' :
  room_change roomId room op room' ->
  guesses (host room) `prefix_of` guesses (host room') ∧
  ∀ g, guest room = Some g ->
       ∃ g', guest room' = Some g' ∧ uid g' = uid g ∧ role g' = role g ∧
             guesses g `prefix_of` guesses g'.
Proof.
  destruct 1; simpl; (split; [try reflexivity | intros g Hg]);
    try (rewrite Hg; simpl; eexists; repeat split; reflexivity);
    try (exists g; repeat split; [assumption | reflexivity]).
  - congruence.
  - apply prefix_app_r. reflexivity.
  - rewrite Hg. simpl. eexists. repeat split. apply prefix_app_r. reflexivity.
Qed.

(** An invariant of single changes is an invariant of sequences of
    calls that do not delete the room. *)
Lemma steps_room (R : Room -> Room -> Prop) roomId :
  (∀ room, R room room) ->
  (∀ r1 r2 r3, R r1 r2 -> R r2 r3 -> R r1 r3) ->
  (∀ room op room', room_change roomId room op room' -> R room room') ->
  ∀ (s s' : Store) ops room,
    steps s ops s' ->
    Forall (fun op => op ≠ DeleteRoom roomId) ops ->
    s !! roomId = Some room ->
    ∃ room', s' !! roomId = Some room' ∧ R room room'.
Proof.
  intros Hrefl Htrans Hstep s s' ops room Hsteps. revert room.
  induction Hsteps as [s | s op ops s' Hadm Hsteps IH];
    intros room Hkeep Hroom.
  - exists room. auto.
  - apply Forall_cons in Hkeep as [Hop Hkeep].
    destruct (exec_room_change s op roomId room Hadm Hroom Hop)
      as (room1 & Hroom1 & Hchange).
    destruct (IH room1 Hkeep Hroom1) as (room' & Hroom' & HR).
    exists room'. split; [exact Hroom'|].
    eapply Htrans; [eapply Hstep; exact Hchange | exact HR].
Qed.

(** X16. Through any sequence of calls that does not delete it, a room
    keeps its [id] field, its configuration, its creation time and its
    host's uid and role. *)
Theorem room_fixed_fields (s s' : Store) (ops : list Op) (roomId : string)
    (room : Room) :
  steps s ops s' ->
  Forall (fun op => op ≠ DeleteRoom roomId) ops ->
  s !! roomId = Some room ->
  ∃ room', s' !! roomId = Some room' ∧
           id room' = id room ∧ config room' = config room ∧
           createdAt room' = createdAt room ∧
           uid (host room') = uid (host room) ∧
           role (host room') = role (host room).
Proof.
  apply (steps_room
           (fun r r' => id r' = id r ∧ config r' = config r ∧
                        createdAt r' = createdAt r ∧
                        uid (host r') = uid (host r) ∧
                        role (host r') = role (host r))).
  - auto.
  - intros r1 r2 r3 (?&?&?&?&?) (?&?&?&?&?). repeat split; congruence.
  - intros r op r'. apply room_change_fixed.
Qed.

Lemma room_fixed_fields_witness :
  finishedStore !! "room1" = Some finishedRoom ∧
  ∃ room', run [StartGame "room1" 200; SubmitGuess "room1" "bob" "1234" 210]
               finishedStore !! "room1" = Some room' ∧
           config room' = config finishedRoom ∧
           uid (host room') = uid (host finishedRoom).
Proof.
  assert (Hf : finishedStore !! "room1" = Some finishedRoom)
    by (vm_compute; reflexivity).
  split; [exact Hf|].
  destruct (room_fixed_fields finishedStore
              (run [StartGame "room1" 200; SubmitGuess "room1" "bob" "1234" 210]
                   finishedStore)
              [StartGame "room1" 200; SubmitGuess "room1" "bob" "1234" 210]
              "room1" finishedRoom)
    as (room' & Hroom' & _ & Hconfig & _ & Huid & _).
  - apply steps_cons; [exact I|]. apply steps_cons; [exact I|]. apply steps_nil.
  - repeat constructor; discriminate.
  - exact Hf.
  - exists room'. auto.
Defined.

(** X17. Through any sequence of calls that does not delete the room,
    guesses are only ever appended and a guest stays: the host's earlier
    guesses are a prefix of the later ones, and a guest once present is
    still present, with the same uid and with guesses that extend the
    earlier ones; so a further [joinRoom] is refused with
    [AlreadyFull]. *)
Theorem guesses_grow_guest_stays (s s' : Store) (ops : list Op)
    (roomId : string) (room : Room) :
  steps s ops s' ->
  Forall (fun op => op ≠ DeleteRoom roomId) ops ->
  s !! roomId = Some room ->
  ∃ room', s' !! roomId = Some room' ∧
    guesses (host room) `prefix_of` guesses (host room') ∧
    ∀ g, guest room = Some g ->
      (∃ g', guest room' = Some g' ∧ uid g' = uid g ∧
             guesses g `prefix_of` guesses g') ∧
      ∀ guestUid now, joinRoom roomId guestUid now s' = (Err AlreadyFull, s').
Proof.
  intros Hsteps Hkeep Hroom.
  destruct (steps_room
              (fun r r' =>
                 guesses (host r) `prefix_of` guesses (host r') ∧
                 ∀ g, guest r = Some g ->
                      ∃ g', guest r' = Some g' ∧ uid g' = uid g ∧
                            guesses g `prefix_of` guesses g')
              roomId) with (s := s) (s' := s') (ops := ops) (room := room)
    as (room' & Hroom' & Hhost & Hguest); try assumption.
  - intros r. split; [reflexivity|]. intros g Hg. exists g. auto.
  - intros r1 r2 r3 [Hh12 Hg12] [Hh23 Hg23].
    split; [etrans; eassumption|].
    intros g Hg. destruct (Hg12 g Hg) as (g2 & Hg2 & Hu2 & Hp2).
    destruct (Hg23 g2 Hg2) as (g3 & Hg3 & Hu3 & Hp3).
    exists g3. split; [exact Hg3|]. split; [congruence | etrans; eassumption].
  - intros r op r' Hchange.
    destruct (room_change_guesses _ _ _ _ Hchange) as [Hh Hg].
    split; [exact Hh|]. intros g Hgr.
    destruct (Hg g Hgr) as (g' & ? & ? & _ & ?). exists g'. auto.
  - exists room'. split; [exact Hroom'|]. split; [exact Hhost|].
    intros g Hg. destruct (Hguest g Hg) as (g' & Hg' & Hrest).
    split; [exists g'; auto|].
    intros guestUid now. unfold joinRoom, bind, getDoc, throw.
    rewrite Hroom', Hg'. reflexivity.
Qed.

Lemma guesses_grow_guest_stays_witness :
  joinedStore !! "room1" = Some joinedRoom ∧
  ∃ room',
    run [SubmitGuess "room1" "bob" "1234" 210; FinishGame "room1" 220]
        joinedStore !! "room1" = Some room' ∧
    ∃ g', guest room' = Some g' ∧ uid g' = "bob".
Proof.
  assert (Hj : joinedStore !! "room1" = Some joinedRoom)
    by (vm_compute; reflexivity).
  split; [exact Hj|].
  destruct (guesses_grow_guest_stays joinedStore
              (run [SubmitGuess "room1" "bob" "1234" 210;
                    FinishGame "room1" 220] joinedStore)
              [SubmitGuess "room1" "bob" "1234" 210; FinishGame "room1" 220]
              "room1" joinedRoom)
    as (room' & Hroom' & _ & Hguest).
  - apply steps_cons; [exact I|]. apply steps_cons; [exact I|]. apply steps_nil.
  - repeat constructor; discriminate.
  - exact Hj.
  - exists room'. split; [exact Hroom'|].
    destruct (Hguest bob eq_refl) as [(g' & Hg' & Hu & _) _].
    exists g'. auto.
Defined.


(** ** From creation to the start of the game *)



(** ** A host who joins the own room *)

Lemma room_change_self_guest roomId room op room' :
  room_change roomId room op room' ->
  (∃ g, guest room = Some g ∧ uid g = uid (host room) ∧ isReady g = false) ->
  ∃ g', guest room' = Some g' ∧ uid g' = uid (host room') ∧
        isReady g' = false.
Proof.
  intros Hchange (g & Hg & Huid & Hready).
  destruct Hchange; simpl; rewrite ?Hg in *; simpl in *;
    try (exists g; repeat split; assumption);
    congruence.
Qed.

(** X19. [joinRoom] does not compare the new guest's uid with the
    host's.  Once a host has joined the own room, every call with that
    uid is taken as the host's, the guest can never become ready, and
    [startGame] throws [NotReady] after any sequence of calls that does
    not delete the room. *)
Theorem self_joined_room_never_starts (s s' : Store) (ops : list Op)
    (roomId : string) (room : Room) (g : Player) :
  steps s ops s' ->
  Forall (fun op => op ≠ DeleteRoom roomId) ops ->
  s !! roomId = Some room ->
  guest room = Some g -> uid g = uid (host room) -> isReady g = false ->
  ∀ now, startGame roomId now s' = (Err NotReady, s').
Proof.
  intros Hsteps Hkeep Hroom Hg Huid Hready now.
  destruct (steps_room
              (fun r r' =>
                 (∃ g, guest r = Some g ∧ uid g = uid (host r) ∧
                       isReady g = false) ->
                 ∃ g', guest r' = Some g' ∧ uid g' = uid (host r') ∧
                       isReady g' = false)
              roomId) with (s := s) (s' := s') (ops := ops) (room := room)
    as (room' & Hroom' & Hinv); try assumption.
  - auto.
  - auto.
  - intros r op r'. apply room_change_self_guest.
  - destruct Hinv as (g' & Hg' & _ & Hready'); [exists g; auto|].
    unfold startGame, bind, getDoc, throw, guestNotReady.
    rewrite Hroom', Hg', Hready', orb_true_r. reflexivity.
Qed.

Lemma self_joined_room_never_starts_witness :
  ∃ room g,
    run [CreateRoom "room1" sampleData 100; JoinRoom "room1" "alice" 110]
        ∅ !! "room1" = Some room ∧
    guest room = Some g ∧ uid g = uid (host room) ∧
    startGame "room1" 200
      (run [SetPlayerSecret "room1" "alice" "1234" 120;
            UpdatePlayerReady "room1" "alice" true 130]
         (run [CreateRoom "room1" sampleData 100;
               JoinRoom "room1" "alice" 110] ∅))
    = (Err NotReady,
       run [SetPlayerSecret "room1" "alice" "1234" 120;
            UpdatePlayerReady "room1" "alice" true 130]
         (run [CreateRoom "room1" sampleData 100;
               JoinRoom "room1" "alice" 110] ∅)).
Proof.
  eexists. eexists.
  split; [vm_compute; reflexivity|].
  split; [reflexivity|]. split; [reflexivity|].
  eapply (self_joined_room_never_starts _ _
            [SetPlayerSecret "room1" "alice" "1234" 120;
             UpdatePlayerReady "room1" "alice" true 130] "room1").
  - apply steps_cons; [exact I|]. apply steps_cons; [exact I|]. apply steps_nil.
  - repeat constructor; discriminate.
  - vm_compute. reflexivity.
  - reflexivity.
  - reflexivity.
  - reflexivity.
Defined.

(** ** What holds in every store the service produces *)

Lemma in_guest_role (f : Player -> Player) (room : Room) :
  (∀ p, role (f p) = role p) ->
  (∀ g, guest room = Some g -> role g = guest_role) ->
  ∀ g, guest (in_guest f room) = Some g -> role g = guest_role.
Proof.
  intros Hf Hguest g' Hg'. simpl in Hg'.
  destruct (guest room) as [g|]; [|discriminate].
  injection Hg' as <-. rewrite Hf. apply Hguest. reflexivity.
Qed.

Lemma in_guest_present (f : Player -> Player) (room : Room) :
  (∃ g, guest room = Some g) -> ∃ g, guest (in_guest f room) = Some g.
Proof. intros [g Hg]. simpl. rewrite Hg. simpl. eauto. Qed.

Lemma room_change_well_formed roomId room op room' :
  room_change roomId room op room' ->
  well_formed_room roomId room -> well_formed_room roomId room'.
Proof.
  intros Hchange (Hid & Hhost & Hguest & Hplaying).
  destruct Hchange; unfold well_formed_room;
    (split; [exact Hid|]); (split; [exact Hhost|]);
    try (split; [exact Hguest | exact Hplaying]).
  - split; [intros g [= <-]; reflexivity | simpl; congruence].
  - split; [apply in_guest_role; auto|].
    intros Hst. apply in_guest_present. auto.
  - split; [apply in_guest_role; auto|].
    intros Hst. apply in_guest_present. auto.
  - split; [exact Hguest|]. intros _. simpl.
    unfold guestNotReady in *. destruct (guest room); [eauto | discriminate].
  - split; [apply in_guest_role; auto|].
    intros Hst. apply in_guest_present. auto.
  - split; [exact Hguest | simpl; discriminate].
  - split; [apply in_guest_role; auto|].
    intros Hst. apply in_guest_present. auto.
Qed.

Lemma exec_well_formed (s : Store) (op : Op) :
  admissible s op ->
  (∀ roomId room, s !! roomId = Some room -> well_formed_room roomId room) ->
  ∀ roomId room, exec op s !! roomId = Some room ->
                 well_formed_room roomId room.
Proof.
  intros Hadm Hinv roomId room' Hroom'.
  destruct (s !! roomId) as [room|] eqn:Hroom.
  - eapply room_change_well_formed; [|apply Hinv; exact Hroom].
    eapply exec_lookup_change; eassumption.
  - destruct op as [r data now | | | | | | | |];
      try (rewrite exec_absent in Hroom'; [discriminate | exact Hroom |
                                           intros; discriminate]).
    destruct (decide (r = roomId)) as [->|Hne].
    + unfold exec, after, createRoom, bind, setDoc, ret in Hroom'.
      simpl in Hroom'. rewrite lookup_insert_eq in Hroom'.
      injection Hroom' as <-. repeat split; simpl; discriminate.
    + rewrite exec_absent in Hroom'; [discriminate | exact Hroom |].
      intros data' now'. congruence.
Qed.

(** X20. In every store that the exported operations produce from an
    empty collection, each room carries as [id] the id it is stored
    under, its host has the role host and its guest, if any, the role
    guest, and a room that is [playing] has a guest. *)
Theorem reachable_rooms_well_formed (s : Store) (roomId : string)
    (room : Room) :
  reachable s -> s !! roomId = Some room -> well_formed_room roomId room.
Proof.
  intros [ops Hsteps]. revert roomId room.
  assert (Hgen : ∀ s0 : Store,
            steps s0 ops s ->
            (∀ roomId room, s0 !! roomId = Some room ->
                            well_formed_room roomId room) ->
            ∀ roomId room, s !! roomId = Some room ->
                           well_formed_room roomId room).
  { clear Hsteps. intros s0 Hsteps.
    induction Hsteps as [s1 | s1 op ops s2 Hadm Hsteps IH]; [auto|].
    intros Hinv. apply IH. apply exec_well_formed; assumption. }
  apply (Hgen ∅ Hsteps). intros roomId room Hempty.
  rewrite lookup_empty in Hempty. discriminate.
Qed.

Lemma reachable_rooms_well_formed_witness :
  reachable finishedStore ∧
  finishedStore !! "room1" = Some finishedRoom ∧
  well_formed_room "room1" finishedRoom.
Proof.
  assert (Hreach : reachable finishedStore).
  { exists playedToTheEnd. unfold finishedStore, playedToTheEnd.
    apply steps_cons; [reflexivity|].
    repeat (apply steps_cons; [exact I|]). apply steps_nil. }
  assert (Hf : finishedStore !! "room1" = Some finishedRoom)
    by (vm_compute; reflexivity).
  split; [exact Hreach|]. split; [exact Hf|].
  exact (reachable_rooms_well_formed finishedStore "room1" finishedRoom
           Hreach Hf).
Defined.


(** ** The room as a client sees it *)





(** X22. After a guess that [submitGuess] accepts, [isMyTurn] holds on
    exactly the clients that sit on the other side from the caller: when
    the host has guessed, on every client whose uid is not the host's;
    when the guest has guessed, on the host's client. *)
Theorem turn_passes_to_other_side (s : Store)
    (roomId playerUid guess viewer : string) (now : Z) (room : Room) :
  s !! roomId = Some room ->
  uid (host room) = playerUid ∨ uid <$> guest room = Some playerUid ->
  ∃ room',
    submitGuess roomId playerUid guess now s
      = (Ok tt, <[roomId := room']> s) ∧
    (OnlineGamePage.isMyTurn room' viewer = true ↔
     OnlineGamePage.isHost room viewer
       ≠ OnlineGamePage.isHost room playerUid).
Proof.
  intros Hroom Hwho.
  destruct (decide (uid (host room) = playerUid)) as [Hhost|Hhost].
  - eexists. split; [apply submitGuess_host; eassumption|].
    unfold OnlineGamePage.isMyTurn, OnlineGamePage.isHost. simpl.
    rewrite (bool_decide_eq_true_2 (uid (host room) = playerUid))
      by exact Hhost.
    rewrite bool_decide_eq_true.
    destruct (bool_decide (uid (host room) = viewer));
      split; congruence.
  - destruct Hwho as [Hwho|Hwho]; [contradiction|].
    destruct (guest room) as [g|] eqn:Hg; [|discriminate].
    injection Hwho as Hwho.
    eexists. split; [eapply submitGuess_guest; eassumption|].
    unfold OnlineGamePage.isMyTurn, OnlineGamePage.isHost. simpl.
    rewrite (bool_decide_eq_false_2 (uid (host room) = playerUid))
      by exact Hhost.
    rewrite bool_decide_eq_true.
    destruct (bool_decide (uid (host room) = viewer));
      split; congruence.
Qed.

Lemma turn_passes_to_other_side_witness :
  joinedStore !! "room1" = Some joinedRoom ∧
  (∃ room',
     submitGuess "room1" "alice" "1234" 200 joinedStore
       = (Ok tt, <["room1" := room']> joinedStore) ∧
     OnlineGamePage.isMyTurn room' "bob" = true) ∧
  (∃ room',
     submitGuess "room1" "alice" "1234" 200 joinedStore
       = (Ok tt, <["room1" := room']> joinedStore) ∧
     OnlineGamePage.isMyTurn room' "alice" ≠ true).
Proof.
  assert (Hj : joinedStore !! "room1" = Some joinedRoom)
    by (vm_compute; reflexivity).
  split; [exact Hj|]. split.
  - destruct (turn_passes_to_other_side joinedStore "room1" "alice" "1234"
                "bob" 200 joinedRoom Hj (or_introl eq_refl))
      as (room' & Heq & Hbob).
    exists room'. split; [exact Heq|]. apply Hbob. vm_compute. discriminate.
  - destruct (turn_passes_to_other_side joinedStore "room1" "alice" "1234"
                "alice" 200 joinedRoom Hj (or_introl eq_refl))
      as (room' & Heq & Halice).
    exists room'. split; [exact Heq|].
    intros Hturn. apply Halice in Hturn. apply Hturn. reflexivity.
Defined.

Lemma won_iff (guesses : list string) (secret : string) (config : GameConfig) :
  Z.of_nat (String.length secret) = digits config ->
  existsb (fun r => isGameClear (snd r) config)
          (OnlineGamePage.getGuessResults guesses secret) = true ↔
  ∃ g, g ∈ guesses ∧ String.prefix secret g = true.
Proof.
  intros Hlen. unfold OnlineGamePage.getGuessResults.
  rewrite existsb_exists. split.
  - intros (r & Hin & Hclear). apply list_elem_of_In in Hin.
    apply list_elem_of_fmap in Hin as (g & -> & Hg). simpl in Hclear.
    exists g. split; [exact Hg|].
    apply (isGameClear_prefix secret g config Hlen). exact Hclear.
  - intros (g & Hg & Hpre). exists (g, checkGuess secret g). split.
    + apply list_elem_of_In. apply list_elem_of_fmap. exists g. auto.
    + simpl. apply (isGameClear_prefix secret g config Hlen). exact Hpre.
Qed.

Lemma never_won_without_secret (guesses : list string) (config : GameConfig) :
  (1 <= digits config)%Z ->
  existsb (fun r => isGameClear (snd r) config)
          (OnlineGamePage.getGuessResults guesses "") = false.
Proof.
  intros Hpos. unfold OnlineGamePage.getGuessResults.
  induction guesses as [|g l IH]; [reflexivity|].
  rewrite fmap_cons. cbn [existsb snd]. rewrite IH, orb_false_r.
  unfold isGameClear, checkGuess. simpl.
  apply bool_decide_eq_false_2. lia.
Qed.

(** X23. For an opponent whose stored secret has [digits] characters, a
    client reports [iWon] exactly when one of its player's guesses
    starts with that secret; when all these guesses have the secret's
    length, exactly when the secret is among them. *)
Theorem iWon_iff (room : Room) (userUid : string) (p : Player) :
  OnlineGamePage.myPlayer room userUid = Some p ->
  Z.of_nat (String.length (OnlineGamePage.opponentSecret room userUid))
    = digits (config room) ->
  (OnlineGamePage.iWon room userUid = true ↔
   ∃ g, g ∈ guesses p ∧
        String.prefix (OnlineGamePage.opponentSecret room userUid) g = true) ∧
  ((∀ g, g ∈ guesses p ->
         String.length g
           = String.length (OnlineGamePage.opponentSecret room userUid)) ->
   OnlineGamePage.iWon room userUid = true ↔
   OnlineGamePage.opponentSecret room userUid ∈ guesses p).
Proof.
  intros Hme Hlen.
  assert (Hiff : OnlineGamePage.iWon room userUid = true ↔
            ∃ g, g ∈ guesses p ∧
                 String.prefix (OnlineGamePage.opponentSecret room userUid) g
                   = true).
  { unfold OnlineGamePage.iWon, OnlineGamePage.myResults. rewrite Hme.
    apply won_iff. exact Hlen. }
  split; [exact Hiff|].
  intros Hsame. rewrite Hiff. split.
  - intros (g & Hg & Hpre).
    apply prefix_same_length in Hpre; [subst g; exact Hg|].
    symmetry. apply Hsame. exact Hg.
  - intros Hin. eexists. split; [exact Hin|].
    apply prefix_same_length; reflexivity.
Qed.

Lemma iWon_iff_witness :
  OnlineGamePage.myPlayer wonRoom "alice" = Some (host wonRoom) ∧
  OnlineGamePage.iWon wonRoom "alice" = true.
Proof.
  split; [reflexivity|].
  apply (proj2 (iWon_iff wonRoom "alice" _ eq_refl eq_refl)).
  - intros g Hg. simpl in Hg.
    apply elem_of_cons in Hg as [->|Hg]; [reflexivity|].
    apply elem_of_cons in Hg as [->|Hg]; [reflexivity|].
    inversion Hg.
  - simpl. right. left.
Defined.

(** X24. Host and guest, with different uids, agree on who has won as
    long as each client's own copy of its secret is the stored one: what
    one client reports as [iWon] the other reports as [opponentWon]. *)
Theorem clients_agree (room : Room) (g : Player)
    (hostLocal guestLocal : string) :
  guest room = Some g ->
  uid (host room) ≠ uid g ->
  hostLocal = default "" (secret (host room)) ->
  guestLocal = default "" (secret g) ->
  OnlineGamePage.iWon room (uid (host room))
    = OnlineGamePage.opponentWon room (uid g) guestLocal ∧
  OnlineGamePage.iWon room (uid g)
    = OnlineGamePage.opponentWon room (uid (host room)) hostLocal.
Proof.
  intros Hg Hne -> ->.
  unfold OnlineGamePage.iWon, OnlineGamePage.opponentWon,
    OnlineGamePage.myResults, OnlineGamePage.opponentResults,
    OnlineGamePage.opponentSecret, OnlineGamePage.myPlayer,
    OnlineGamePage.opponentPlayer, OnlineGamePage.isHost.
  rewrite (bool_decide_eq_true_2 (uid (host room) = uid (host room)))
    by reflexivity.
  rewrite (bool_decide_eq_false_2 (uid (host room) = uid g)) by exact Hne.
  rewrite Hg. split; reflexivity.
Qed.

Lemma clients_agree_witness :
  guest finishedRoom = Some (set_isReady true (set_secret "5678" bob)) ∧
  OnlineGamePage.iWon finishedRoom "alice"
    = OnlineGamePage.opponentWon finishedRoom "bob" "5678".
Proof.
  split; [reflexivity|].
  apply (proj1 (clients_agree finishedRoom
                  (set_isReady true (set_secret "5678" bob))
                  "1234" "5678" eq_refl ltac:(discriminate) eq_refl eq_refl)).
Defined.

(** X25. A client whose own copy of its secret is the empty string, as
    it is when the page has not generated the secret in this session,
    never reports [opponentWon], whatever the opponent has guessed; and
    a client never reports [iWon] against an opponent who has no secret
    stored.  Both for a configuration of at least one digit. *)
Theorem no_win_without_secret (room : Room) (userUid : string) :
  (1 <= digits (config room))%Z ->
  OnlineGamePage.opponentWon room userUid "" = false ∧
  (OnlineGamePage.opponentSecret room userUid = "" ->
   OnlineGamePage.iWon room userUid = false).
Proof.
  intros Hpos. split.
  - unfold OnlineGamePage.opponentWon, OnlineGamePage.opponentResults.
    destruct (OnlineGamePage.opponentPlayer room userUid); [|reflexivity].
    apply never_won_without_secret. exact Hpos.
  - intros Hempty. unfold OnlineGamePage.iWon, OnlineGamePage.myResults.
    rewrite Hempty.
    destruct (OnlineGamePage.myPlayer room userUid); [|reflexivity].
    apply never_won_without_secret. exact Hpos.
Qed.

Lemma no_win_without_secret_witness :
  (1 <= digits (config wonRoom))%Z ∧
  OnlineGamePage.iWon wonRoom "alice" = true ∧
  OnlineGamePage.opponentWon wonRoom "bob" "" = false.
Proof.
  assert (H : (1 <= digits (config wonRoom))%Z) by (simpl; lia).
  split; [exact H|]. split; [reflexivity|].
  exact (proj1 (no_win_without_secret wonRoom "bob" H)).
Defined.


(** ** The list of waiting rooms *)

#[global] Instance newerFirst_total : Total newerFirst.
Proof.
  intros [k1 r1] [k2 r2]. unfold newerFirst. simpl.
  destruct (Z.lt_trichotomy (createdAt r1) (createdAt r2)) as [H|[H|H]];
    [right; left; exact H | | left; left; exact H].
  destruct (total String.le k1 k2) as [Hk|Hk];
    [right; right | left; right]; auto.
Qed.

#[global] Instance newerFirst_trans : Transitive newerFirst.
Proof.
  intros [k1 r1] [k2 r2] [k3 r3]. unfold newerFirst. simpl.
  intros [H12|[H12 K12]] [H23|[H23 K23]];
    [left; lia | left; lia | left; lia | right].
  split; [congruence | etrans; eassumption].
Qed.

(** The documents that a query for [wanted] ranks, before [limit]. *)
Lemma ranked_documents (s : Store) (wanted : RoomStatus) :
  let ranked := merge_sort newerFirst
                  (filter (fun d => status (snd d) = wanted) (map_to_list s)) in
  StronglySorted newerFirst ranked ∧
  length ranked
    = length (filter (fun d : string * Room => status (snd d) = wanted)
                     (map_to_list s)) ∧
  ∀ k r, (k, r) ∈ ranked ↔ s !! k = Some r ∧ status r = wanted.
Proof.
  simpl. split; [apply StronglySorted_merge_sort; apply _|].
  split; [apply Permutation_length, merge_sort_Permutation|].
  intros k r. rewrite merge_sort_Permutation, list_elem_of_filter.
  rewrite elem_of_map_to_list. simpl. tauto.
Qed.

(** X26. [getWaitingRooms] with a count that is not positive is refused
    by the store.  Otherwise, with [n] the count (20 when none is
    given), it returns rooms that are all stored with status [waiting],
    ordered from the latest creation time to the earliest, as many as
    there are waiting rooms but no more than [n]; a waiting room left
    out was created no later than any room returned.  The store is not
    changed. *)
Theorem getWaitingRooms_spec (s : Store) (maxCount : option Z) :
  ((default 20%Z maxCount <= 0)%Z ->
     getWaitingRooms maxCount s = (Err StoreError, s)) ∧
  ((0 < default 20%Z maxCount)%Z ->
     ∃ rooms,
       getWaitingRooms maxCount s = (Ok rooms, s) ∧
       (∀ r, r ∈ rooms -> status r = waiting ∧ ∃ k, s !! k = Some r) ∧
       length rooms =
         Nat.min (Z.to_nat (default 20%Z maxCount))
                 (length (filter (fun d : string * Room =>
                                    status (snd d) = waiting)
                                 (map_to_list s))) ∧
       StronglySorted (fun r1 r2 => (createdAt r2 <= createdAt r1)%Z) rooms ∧
       (∀ r k r', r ∈ rooms -> s !! k = Some r' -> status r' = waiting ->
                  r' ∉ rooms -> (createdAt r' <= createdAt r)%Z)).
Proof.
  unfold getWaitingRooms, queryByStatus.
  split.
  { intros Hle. destruct (Z.leb_spec (default 20%Z maxCount) 0);
      [reflexivity | lia]. }
  intros Hpos.
  destruct (Z.leb_spec (default 20%Z maxCount) 0) as [Hle|_]; [lia|].
  destruct (ranked_documents s waiting) as (Hsorted & Hlen & Hmem).
  set (ranked := merge_sort newerFirst
                   (filter (fun d => status (snd d) = waiting)
                           (map_to_list s))) in *.
  set (n := Z.to_nat (default 20%Z maxCount)).
  exists (snd <$> take n ranked).
  split; [rewrite fmap_take; reflexivity|].
  assert (Hsplit : ranked = (take n ranked ++ drop n ranked)%list)
    by (symmetry; apply take_drop).
  split; [|split; [|split]].
  - intros r Hr. apply list_elem_of_fmap in Hr as ([k r0] & -> & Hin).
    simpl. assert ((k, r0) ∈ ranked) as Hranked.
    { rewrite Hsplit. apply elem_of_app. left. exact Hin. }
    apply Hmem in Hranked as [Hlook Hst]. split; [exact Hst | eauto].
  - rewrite length_fmap, length_take, Hlen. reflexivity.
  - rewrite Hsplit in Hsorted. apply StronglySorted_app_1_l in Hsorted.
    eapply (StronglySorted_fmap snd newerFirst); [|exact Hsorted].
    intros [k1 r1] [k2 r2]. unfold newerFirst. simpl. lia.
  - intros r k r' Hr Hlook Hst Hout.
    apply list_elem_of_fmap in Hr as ([k0 r0] & -> & Hin). simpl.
    assert ((k, r') ∈ ranked) as Hranked by (apply Hmem; auto).
    rewrite Hsplit in Hranked. apply elem_of_app in Hranked as [Hkept|Hcut].
    + exfalso. apply Hout. apply list_elem_of_fmap. exists (k, r'). auto.
    + rewrite Hsplit in Hsorted.
      pose proof (StronglySorted_app_1_elem_of _ _ _ _ _ Hsorted Hin Hcut)
        as Hord.
      unfold newerFirst in Hord. simpl in Hord. lia.
Qed.

Lemma getWaitingRooms_spec_witness :
  (0 < default 20%Z (Some 5%Z))%Z ∧
  (∃ rooms, getWaitingRooms (Some 5%Z) joinedStore = (Ok rooms, joinedStore) ∧
            length rooms = 1%nat) ∧
  getWaitingRooms (Some 0%Z) joinedStore = (Err StoreError, joinedStore).
Proof.
  assert (H5 : (0 < default 20%Z (Some 5%Z))%Z) by (simpl; lia).
  split; [exact H5|]. split.
  - destruct (proj2 (getWaitingRooms_spec joinedStore (Some 5%Z)) H5)
      as (rooms & Heq & _ & Hlen & _).
    exists rooms. split; [exact Heq|]. rewrite Hlen. vm_compute. reflexivity.
  - apply (proj1 (getWaitingRooms_spec joinedStore (Some 0%Z))). simpl. lia.
Defined.


(** ** The single-player page *)

Lemma valid_length (guess : string) (config : GameConfig) :
  validateGuess guess config = None ->
  Z.of_nat (String.length guess) = digits config.
Proof. intros H. apply validateGuess_None in H. tauto. Qed.

(** Between two valid strings, a clear is a guess equal to the secret. *)
Lemma clear_iff_equal (secret guess : string) (config : GameConfig) :
  validateGuess secret config = None ->
  validateGuess guess config = None ->
  isGameClear (checkGuess secret guess) config = true ↔ guess = secret.
Proof.
  intros Hs Hg. apply valid_length in Hs. apply valid_length in Hg.
  rewrite (isGameClear_prefix _ _ _ Hs).
  apply prefix_same_length. lia.
Qed.

(** X27. [handleSubmitGuess] with an input that [validateGuess] refuses
    only sets the error message: history, state, input and secret stay.
    With an accepted input it appends one entry holding the input and
    its hits and blows against the secret, empties the input and clears
    the message; and, the secret being itself a valid string, the state
    becomes [won] exactly when the input is the secret (or the state
    was [won] already). *)
Theorem handleSubmitGuess_spec (p : GamePage.Page) :
  (∀ e, validateGuess (GamePage.currentGuess p) (GamePage.config p) = Some e ->
        GamePage.handleSubmitGuess p =
          {| GamePage.config := GamePage.config p;
             GamePage.gameState := GamePage.gameState p;
             GamePage.secret := GamePage.secret p;
             GamePage.currentGuess := GamePage.currentGuess p;
             GamePage.history := GamePage.history p;
             GamePage.error := Some e |}) ∧
  (validateGuess (GamePage.currentGuess p) (GamePage.config p) = None ->
     GamePage.history (GamePage.handleSubmitGuess p) =
       (GamePage.history p ++
        [{| GamePage.guess := GamePage.currentGuess p;
            GamePage.hit :=
              hit (checkGuess (GamePage.secret p) (GamePage.currentGuess p));
            GamePage.blow :=
              blow (checkGuess (GamePage.secret p) (GamePage.currentGuess p))
         |}])%list ∧
     GamePage.currentGuess (GamePage.handleSubmitGuess p) = "" ∧
     GamePage.error (GamePage.handleSubmitGuess p) = None ∧
     GamePage.secret (GamePage.handleSubmitGuess p) = GamePage.secret p ∧
     GamePage.config (GamePage.handleSubmitGuess p) = GamePage.config p ∧
     (validateGuess (GamePage.secret p) (GamePage.config p) = None ->
      GamePage.gameState (GamePage.handleSubmitGuess p) = GamePage.state_won
      ↔ GamePage.currentGuess p = GamePage.secret p ∨
        GamePage.gameState p = GamePage.state_won)).
Proof.
  unfold GamePage.handleSubmitGuess. split.
  - intros e ->. reflexivity.
  - intros Hvalid. rewrite Hvalid. simpl.
    repeat (split; [reflexivity|]).
    intros Hsecret.
    pose proof (clear_iff_equal _ _ _ Hsecret Hvalid) as Hclear.
    destruct (isGameClear _ _).
    + split; [intros _; left; apply Hclear; reflexivity | reflexivity].
    + split; [intros H; right; exact H|].
      intros [Heq|Hwon]; [|exact Hwon].
      apply Hclear in Heq. discriminate.
Qed.

Lemma handleSubmitGuess_spec_witness :
  validateGuess (GamePage.currentGuess
                   (GamePage.setCurrentGuess "17a8" playingPage))
                (GamePage.config
                   (GamePage.setCurrentGuess "17a8" playingPage))
    = Some NonDigitCharacter ∧
  GamePage.history
    (GamePage.handleSubmitGuess (GamePage.setCurrentGuess "17a8" playingPage))
    = [] ∧
  GamePage.gameState wonPage = GamePage.state_won.
Proof.
  split; [vm_compute; reflexivity|]. split.
  - rewrite (proj1 (handleSubmitGuess_spec
                      (GamePage.setCurrentGuess "17a8" playingPage))
               NonDigitCharacter);
      vm_compute; reflexivity.
  - apply (proj2 (proj2 (proj2 (proj2 (proj2
             (proj2 (handleSubmitGuess_spec
                       (GamePage.setCurrentGuess "1738" playingPage))
                    ltac:(vm_compute; reflexivity))))))).
    + vm_compute. reflexivity.
    + left. vm_compute. reflexivity.
Defined.

Lemma startGame_page_ok (rand : nat -> Z) (p : GamePage.Page) :
  (∀ i, 0 <= rand i < randomRange)%Z ->
  digits (GamePage.config p) ∈ [3; 4; 5; 6]%Z ->
  ∃ newSecret,
    GamePage.startGame rand p =
      Some (Ok {| GamePage.config := GamePage.config p;
                  GamePage.gameState := GamePage.state_playing;
                  GamePage.secret := newSecret;
                  GamePage.currentGuess := "";
                  GamePage.history := [];
                  GamePage.error := None |}) ∧
    validateGuess newSecret (GamePage.config p) = None.
Proof.
  intros Hrand Hdigits.
  assert (3 <= digits (GamePage.config p) <= 6)%Z as Hrange.
  { repeat (apply elem_of_cons in Hdigits as [->|Hdigits]; [lia|]).
    inversion Hdigits. }
  destruct (generateRandomSecret_chosen rand (GamePage.config p) Hrand)
    as (chosen & st & Hgen & Hinv & Hlen); [lia | right; lia |].
  exists (join (Some <$> chosen)). unfold GamePage.startGame. rewrite Hgen.
  split; [reflexivity|].
  apply chosen_string_valid; [apply Hinv | exact Hlen | lia |].
  intros Hdup. rewrite Hdup in Hinv. exact (generate_inv_NoDup _ _ Hinv).
Qed.

Lemma page_inv_initial : page_inv GamePage.initialPage.
Proof.
  unfold page_inv. simpl.
  split; [right; left|]. split; [discriminate|].
  split; [intros H; contradiction|]. split; discriminate.
Qed.

Lemma page_inv_handle (p : GamePage.Page) (ev : GamePage.Event) :
  GamePage.offered p ev -> page_inv p -> page_inv (GamePage.handle ev p).
Proof.
  intros Hoff (Hdigits & Hlost & Hgame & Hplaying & Hwon).
  destruct ev as [num | checked | rand | value | | ]; simpl in Hoff.
  - destruct Hoff as [Hcfg Hnum]. unfold page_inv. simpl. rewrite Hcfg.
    split; [exact Hnum|]. split; [discriminate|].
    split; [intros H; contradiction|]. split; discriminate.
  - unfold page_inv. simpl. rewrite Hoff.
    split; [exact Hdigits|]. split; [discriminate|].
    split; [intros H; contradiction|]. split; discriminate.
  - destruct Hoff as [Hcfg Hrand].
    destruct (startGame_page_ok rand p Hrand Hdigits)
      as (newSecret & Hstart & Hvalid).
    simpl. rewrite Hstart. unfold page_inv. simpl.
    split; [exact Hdigits|]. split; [discriminate|].
    split; [intros _; split; [exact Hvalid | constructor]|].
    split; [intros _; constructor | discriminate].
  - unfold page_inv. simpl.
    split; [exact Hdigits|]. split; [exact Hlost|].
    split; [exact Hgame|]. split; [exact Hplaying | exact Hwon].
  - assert (GamePage.gameState p ≠ GamePage.state_config) as Hnot
      by (rewrite Hoff; discriminate).
    destruct (Hgame Hnot) as [Hsecret Hhist]. specialize (Hplaying Hoff).
    simpl. unfold GamePage.handleSubmitGuess.
    destruct (validateGuess (GamePage.currentGuess p) (GamePage.config p))
      as [e|] eqn:Hvalid.
    + unfold page_inv. simpl.
      split; [exact Hdigits|]. split; [exact Hlost|].
      split; [intros _; split; [exact Hsecret | exact Hhist]|].
      split; [intros _; exact Hplaying | exact Hwon].
    + pose proof (clear_iff_equal _ _ _ Hsecret Hvalid) as Hclear.
      assert (Forall (consistent_entry p)
                (GamePage.history p ++
                 [{| GamePage.guess := GamePage.currentGuess p;
                     GamePage.hit :=
                       hit (checkGuess (GamePage.secret p)
                              (GamePage.currentGuess p));
                     GamePage.blow :=
                       blow (checkGuess (GamePage.secret p)
                               (GamePage.currentGuess p)) |}])%list)
        as Hhist'.
      { apply Forall_app. split; [exact Hhist|].
        apply Forall_singleton. repeat split. exact Hvalid. }
      unfold page_inv. simpl.
      split; [exact Hdigits|].
      destruct (isGameClear _ _) eqn:Hc.
      * split; [discriminate|].
        split; [intros _; split; [exact Hsecret | exact Hhist']|].
        split; [discriminate|]. intros _.
        eexists. eexists. split; [reflexivity|].
        split; [simpl; apply Hclear; reflexivity | exact Hplaying].
      * rewrite Hoff. split; [discriminate|].
        split; [intros _; split; [exact Hsecret | exact Hhist']|].
        split; [|discriminate]. intros _.
        apply Forall_app. split; [exact Hplaying|].
        apply Forall_singleton. simpl. intros Heq.
        apply Hclear in Heq. discriminate.
  - unfold page_inv. simpl.
    split; [exact Hdigits|]. split; [discriminate|].
    split; [intros H; contradiction|]. split; discriminate.
Qed.

Lemma shown_page_inv (p : GamePage.Page) : GamePage.shown p -> page_inv p.
Proof.
  induction 1 as [|p ev Hshown IH Hoff]; [apply page_inv_initial|].
  apply page_inv_handle; assumption.
Qed.

(** X28. On every page the user can be shown, the number of digits is 3,
    4, 5 or 6 and the state is never [lost]; so [startGame] never fails:
    with [Math.random] in its range it starts a game with a secret that
    [validateGuess] accepts and an empty history.  And outside the
    settings screen, the secret is such a valid string and every entry
    of the history is a validated guess with the hits and blows of
    [checkGuess] against the current secret. *)
Theorem shown_pages (p : GamePage.Page) :
  GamePage.shown p ->
  digits (GamePage.config p) ∈ [3; 4; 5; 6]%Z ∧
  GamePage.gameState p ≠ GamePage.state_lost ∧
  (∀ rand, (∀ i, 0 <= rand i < randomRange)%Z ->
     ∃ p', GamePage.startGame rand p = Some (Ok p') ∧
           GamePage.gameState p' = GamePage.state_playing ∧
           GamePage.config p' = GamePage.config p ∧
           validateGuess (GamePage.secret p') (GamePage.config p') = None ∧
           GamePage.history p' = []) ∧
  (GamePage.gameState p ≠ GamePage.state_config ->
     validateGuess (GamePage.secret p) (GamePage.config p) = None ∧
     Forall (consistent_entry p) (GamePage.history p)).
Proof.
  intros Hshown.
  destruct (shown_page_inv p Hshown) as (Hdigits & Hlost & Hgame & _).
  split; [exact Hdigits|]. split; [exact Hlost|]. split; [|exact Hgame].
  intros rand Hrand.
  destruct (startGame_page_ok rand p Hrand Hdigits)
    as (newSecret & Hstart & Hvalid).
  eexists. split; [exact Hstart|]. simpl. auto.
Qed.

Lemma shown_pages_witness :
  GamePage.shown wonPage ∧
  validateGuess (GamePage.secret wonPage) (GamePage.config wonPage) = None.
Proof.
  assert (Hshown : GamePage.shown wonPage).
  { unfold wonPage, playingPage.
    apply GamePage.shown_next; [|vm_compute; reflexivity].
    apply GamePage.shown_next; [|vm_compute; reflexivity].
    apply GamePage.shown_next; [apply GamePage.shown_initial|].
    split; [reflexivity|]. intros i. unfold sampleRand.
    apply Z.mod_pos_bound. reflexivity. }
  split; [exact Hshown|].
  apply (proj2 (proj2 (proj2 (shown_pages wonPage Hshown)))).
  vm_compute. discriminate.
Defined.

(** X29. On every page the user can be shown: while the game is
    [playing], no guess of the history is the secret; and when it is
    [won], the last guess of the history is the secret and no earlier
    one is. *)
Theorem won_by_last_guess (p : GamePage.Page) :
  GamePage.shown p ->
  (GamePage.gameState p = GamePage.state_playing ->
     Forall (fun h => GamePage.guess h ≠ GamePage.secret p)
            (GamePage.history p)) ∧
  (GamePage.gameState p = GamePage.state_won ->
     ∃ hs h, GamePage.history p = (hs ++ [h])%list ∧
             GamePage.guess h = GamePage.secret p ∧
             Forall (fun h' => GamePage.guess h' ≠ GamePage.secret p) hs).
Proof.
  intros Hshown.
  destruct (shown_page_inv p Hshown) as (_ & _ & _ & Hplaying & Hwon).
  split; assumption.
Qed.

Lemma won_by_last_guess_witness :
  GamePage.shown wonPage ∧
  GamePage.gameState wonPage = GamePage.state_won ∧
  ∃ hs h, GamePage.history wonPage = (hs ++ [h])%list ∧
          GamePage.guess h = GamePage.secret wonPage ∧
          Forall (fun h' => GamePage.guess h' ≠ GamePage.secret wonPage) hs.
Proof.
  assert (Hshown : GamePage.shown wonPage).
  { unfold wonPage, playingPage.
    apply GamePage.shown_next; [|vm_compute; reflexivity].
    apply GamePage.shown_next; [|vm_compute; reflexivity].
    apply GamePage.shown_next; [apply GamePage.shown_initial|].
    split; [reflexivity|]. intros i. unfold sampleRand.
    apply Z.mod_pos_bound. reflexivity. }
  assert (Hwon : GamePage.gameState wonPage = GamePage.state_won)
    by (vm_compute; reflexivity).
  split; [exact Hshown|]. split; [exact Hwon|].
  exact (proj2 (won_by_last_guess wonPage Hshown) Hwon).
Defined.
